(** * notif-bot: deduplication, milestone tracking and event classification

    A shallow embedding of [bot.js]: the change-feed handlers, the two
    in-memory caches with their periodic sweep, the milestone tracker, the
    HTML escaping helper and the queue polling loop.

    JavaScript numbers are IEEE 754 binary64 values; they are modelled by
    Rocq's primitive floats, whose operations are the same binary64
    operations.  [Date.now()] yields an integral number of milliseconds far
    below 2^53, where binary64 arithmetic is exact; clock readings and the
    timestamps of [processedEvents] are therefore carried in [Z].  A handler
    run is given one clock reading, which stands for every [Date.now()] of
    that run.

    Console output is left out, except that each chat message carries the
    label of the [console.log] that precedes it in the source, and that the
    queue loop records its log lines.  A failed chat send is caught inside
    [sendTelegramMessage] and changes nothing that follows, so the handlers
    are modelled by the list of messages they hand to it. *)

From Stdlib Require Import ZArith String Ascii List Floats Lia DecimalString.
From stdpp Require Import base option list gmap strings.

Set Warnings "-inexact-float".
Local Open Scope string_scope.

(** ** Binary64 comparisons as JavaScript writes them *)

Module JsNum.

Definition lt (a b : float) : bool := PrimFloat.ltb a b.   (* a < b  *)
Definition gt (a b : float) : bool := PrimFloat.ltb b a.   (* a > b  *)
Definition ge (a b : float) : bool := PrimFloat.leb b a.   (* a >= b *)
Definition sub (a b : float) : float := PrimFloat.sub a b. (* a - b  *)
Definition mul (a b : float) : float := PrimFloat.mul a b. (* a * b  *)
Definition abs (a : float) : float := PrimFloat.abs a.     (* Math.abs(a) *)
Definition eq (a b : float) : bool := PrimFloat.eqb a b.   (* a === b on numbers *)
Definition isNaN (a : float) : bool := PrimFloat.is_nan a.

(** [Date.now()] read as a number. *)
Definition ofTime (t : Z) : float := PrimFloat.of_uint63 (Uint63.of_Z t).

(** ToBoolean on a number: [+0], [-0] and [NaN] are falsy. *)
Definition truthy (a : float) : bool := negb (eq a 0 || isNaN a).

End JsNum.

(** ** JavaScript values held by row images and queue records *)

(** A column value as the change feed or [JSON.parse] delivers it.  [Obj]
    stands for a nested object or array; the code only ever converts such a
    value to a string or a number, both of which go through its string
    conversion: [prim] is the string that conversion gives when it
    completes.  It need not complete: an object with an own property
    [toString] that is not callable, such as [{toString: 1}], makes
    [String(v)] and [Number(v)] throw a TypeError, and the handler that
    converts it is rejected at that point.  The type does not record which
    objects throw.  Where a statement below needs a conversion to complete,
    it is made for images that hold primitives only ([primitiveRow]): there
    every conversion completes. *)
Inductive value :=
| Undefined
| Null
| Bool (b : bool)
| Num (n : float)
| Str (s : string)
| Obj (prim : string).

(** A row image, a queue record: own properties by name. *)
Abbreviation row := (gmap string value).

(** A string, a number, a boolean, [null] or [undefined]: no object. *)
Definition isPrimitive (v : value) : bool :=
  match v with
  | Obj _ => false
  | _ => true
  end.

(** Every own property of the image holds a primitive. *)
Definition primitiveRow (r : row) : bool :=
  forallb (fun kv => isPrimitive kv.2) (map_to_list r).

(** What [JSON.parse] does with a message body: it throws, or yields [null],
    or yields a value whose own properties are [r] (a primitive or an array
    has none of the names the code reads). *)
Inductive parse_result :=
| SyntaxError
| ParsedNull
| Parsed (r : row).

(** The built-ins of the JavaScript runtime that the code calls.  They are
    not code of this repository; every statement below holds for any
    implementation of them. *)
Class Runtime := {
  NumberToString : float -> string;        (* Number.prototype.toString, String(n) *)
  NumberToLocaleString : float -> string;  (* Number.prototype.toLocaleString *)
  StringToNumber : string -> float;        (* Number(s) on a string *)
  toLowerCase : string -> string;          (* String.prototype.toLowerCase *)
  ObjectPrototype : string -> value;       (* a property inherited by a plain object *)
  JSON_parse : string -> parse_result      (* JSON.parse *)
}.

Definition nl : string := String (ascii_of_nat 10) EmptyString.

(** [o.k], [undefined] when the property is absent. *)
Definition get (o : row) (k : string) : value := default Undefined (o !! k).

(** [o?.k] on an image that may be missing. *)
Definition get_opt (o : option row) (k : string) : value :=
  match o with
  | Some r => get r k
  | None => Undefined
  end.

(** ToBoolean. *)
Definition truthy (v : value) : bool :=
  match v with
  | Undefined | Null => false
  | Bool b => b
  | Num n => JsNum.truthy n
  | Str s => negb (String.eqb s "")
  | Obj _ => true
  end.

(** [a || b]. *)
Definition or_else (a b : value) : value := if truthy a then a else b.

(** [a !== b] for values read from two different images: two objects are
    never the same reference. *)
Definition strict_neq (a b : value) : bool :=
  match a, b with
  | Undefined, Undefined => false
  | Null, Null => false
  | Bool x, Bool y => negb (Bool.eqb x y)
  | Num x, Num y => negb (JsNum.eq x y)
  | Str x, Str y => negb (String.eqb x y)
  | _, _ => true
  end.

(** [str.replace(/c/g, rep)] for a single-character pattern. *)
Fixpoint replaceAll (c : ascii) (rep : string) (s : string) : string :=
  match s with
  | EmptyString => EmptyString
  | String a s' =>
      if Ascii.eqb a c then rep +:+ replaceAll c rep s'
      else String a (replaceAll c rep s')
  end.

Fixpoint occurs (c : ascii) (s : string) : bool :=
  match s with
  | EmptyString => false
  | String a s' => Ascii.eqb a c || occurs c s'
  end.

(** [Buffer.from(s).toString('base64')] (RFC 4648, with padding). *)
Definition b64_alphabet : string :=
  "ABCDEFGHIJKLMNOPQRSTUVWXYZabcdefghijklmnopqrstuvwxyz0123456789+/".

Definition b64_digit (n : N) : ascii :=
  match String.get (N.to_nat n) b64_alphabet with
  | Some c => c
  | None => "="%char
  end.

Fixpoint base64 (s : string) : string :=
  match s with
  | EmptyString => EmptyString
  | String a EmptyString =>
      let x := N_of_ascii a in
      String (b64_digit (x / 4)) (String (b64_digit (x mod 4 * 16)) "==")
  | String a (String b EmptyString) =>
      let x := N_of_ascii a in
      let y := N_of_ascii b in
      String (b64_digit (x / 4))
        (String (b64_digit (x mod 4 * 16 + y / 16))
           (String (b64_digit (y mod 16 * 4)) "="))
  | String a (String b (String c rest)) =>
      let x := N_of_ascii a in
      let y := N_of_ascii b in
      let z := N_of_ascii c in
      String (b64_digit (x / 4))
        (String (b64_digit (x mod 4 * 16 + y / 16))
           (String (b64_digit (y mod 16 * 4 + z / 64))
              (String (b64_digit (z mod 64)) (base64 rest))))
  end%N.

Section Conversions.
Context `{rt : Runtime}.

(** [String(v)] and template interpolation [`${v}`]; on an object, what the
    conversion gives when it completes. *)
Definition ToString (v : value) : string :=
  match v with
  | Undefined => "undefined"
  | Null => "null"
  | Bool true => "true"
  | Bool false => "false"
  | Num n => NumberToString n
  | Str s => s
  | Obj prim => prim
  end.

(** [Number(v)], also the operand conversion of [-] and [*]; on an object,
    what the conversion gives when it completes. *)
Definition Number (v : value) : float :=
  match v with
  | Undefined => nan
  | Null => 0
  | Bool true => 1
  | Bool false => 0
  | Num n => n
  | Str s => StringToNumber s
  | Obj prim => StringToNumber prim
  end.

(** bot.js, [escapeHtml]. *)
Definition escapeHtml (str : value) : string :=
  match str with
  | Null | Undefined => ""
  | _ =>
      replaceAll ">" "&gt;"
        (replaceAll "<" "&lt;"
           (replaceAll "&" "&amp;" (ToString str)))
  end.

(** bot.js, [fmt]. *)
Definition fmt (n : value) : string :=
  match n with
  | Null | Undefined => "0"
  | Num x => NumberToString x
  | _ => ToString n
  end.

(** An element of [Array.prototype.join]: [undefined] and [null] give the
    empty string. *)
Definition join_item (v : value) : string :=
  match v with
  | Undefined | Null => ""
  | _ => ToString v
  end.

Fixpoint join (sep : string) (vs : list value) : string :=
  match vs with
  | [] => ""
  | [v] => join_item v
  | v :: rest => join_item v +:+ sep +:+ join sep rest
  end.

End Conversions.

(** ** The change feed: tables, operations, payloads *)

Inductive table := Users | Auto_Trade | Copy_Wallets | Monthly_Active_Users.
Inductive operation := INSERT | UPDATE.

Definition table_name (t : table) : string :=
  match t with
  | Users => "Users"
  | Auto_Trade => "Auto_Trade"
  | Copy_Wallets => "Copy_Wallets"
  | Monthly_Active_Users => "Monthly_Active_Users"
  end.

Definition operation_name (e : operation) : string :=
  match e with
  | INSERT => "INSERT"
  | UPDATE => "UPDATE"
  end.

(** [payload.new] and [payload.old]; either image may be missing. *)
Record payload := { new : option row; old : option row }.

(** ** The two caches *)

(** [processedEvents] maps an event id to the clock reading of its first
    sight; [milestoneCache] maps ["<user>:<metric>"] to the number stored by
    [checkAndNotifyMilestone]. *)
Record store := {
  processedEvents : gmap string Z;
  milestoneCache : gmap string float
}.

Definition empty_store : store :=
  {| processedEvents := ∅; milestoneCache := ∅ |}.

Definition EVENT_CACHE_TTL : Z := 5 * 60 * 1000.

(** The callback of [setInterval(..., 60000)], run with [Date.now() = now]:
    both loops delete the entries whose stored number [v] satisfies
    [now - v > limit]. *)
Definition sweep (now : Z) (s : store) : store :=
  {| processedEvents :=
       filter (fun kv => (now - kv.2 >? EVENT_CACHE_TTL)%Z = false) (processedEvents s);
     milestoneCache :=
       filter (fun kv => JsNum.gt (JsNum.sub (JsNum.ofTime now) kv.2) 3600000 = false)
              (milestoneCache s) |}.

(** bot.js, [isDuplicateEvent], with [Date.now() = now]. *)
Definition isDuplicateEvent (eventId : string) (now : Z) (s : store) : bool * store :=
  match processedEvents s !! eventId with
  | Some _ => (true, s)
  | None =>
      (false, {| processedEvents := <[eventId := now]> (processedEvents s);
                 milestoneCache := milestoneCache s |})
  end.

(** The loop of [checkAndNotifyMilestone]: the first ladder entry with
    [oldValue < milestone && newValue >= milestone && milestone > lastNotified]. *)
Fixpoint firstCrossing (oldValue newValue lastNotified : float) (milestones : list float)
  : option float :=
  match milestones with
  | [] => None
  | milestone :: rest =>
      if JsNum.lt oldValue milestone && JsNum.ge newValue milestone
         && JsNum.gt milestone lastNotified
      then Some milestone
      else firstCrossing oldValue newValue lastNotified rest
  end.

(** [milestoneCache.get(cacheKey) || 0]. *)
Definition lastNotifiedOf (cacheKey : string) (cache : gmap string float) : float :=
  match cache !! cacheKey with
  | Some v => if JsNum.truthy v then v else 0%float
  | None => 0%float
  end.

Section Core.
Context `{rt : Runtime}.

Definition relevantFields (t : table) : option (list string) :=
  match t with
  | Users =>
      Some ["amount_deposited"; "total_pnl"; "total_volume"; "txns_executed";
            "is_copytrading_enabled"; "fees_total"]
  | Auto_Trade => Some ["status"]
  | Copy_Wallets => Some ["is_enabled"; "percent_ratio"]
  | Monthly_Active_Users => None
  end.

(** bot.js, [generateEventId], with [Date.now() = now]. *)
Definition generateEventId (t : table) (event : operation) (p : payload) (now : Z) : string :=
  let pk := or_else (get_opt (new p) "id") (get_opt (old p) "id") in
  let timestamp :=
    or_else (get_opt (new p) "updated_at")
      (or_else (get_opt (new p) "created_at") (Num (JsNum.ofTime now))) in
  let fieldHash :=
    match event, new p with
    | UPDATE, Some after =>
        match relevantFields t with
        | Some fields =>
            let values := join "|" (map (get after) fields) in
            String.substring 0 10 (base64 values)
        | None => ""
        end
    | _, _ => ""
    end in
  table_name t +:+ ":" +:+ operation_name event +:+ ":" +:+ ToString pk +:+ ":"
    +:+ ToString timestamp +:+ ":" +:+ fieldHash.

Definition cacheKeyOf (userId : value) (milestoneType : string) : string :=
  ToString userId +:+ ":" +:+ milestoneType.

(** bot.js, [checkAndNotifyMilestone]: the returned message (or [null]) and
    the cache after the call. *)
Definition checkAndNotifyMilestone (userId : value) (milestoneType : string)
    (oldValue newValue : float) (milestones : list float)
    (messageGenerator : float -> float -> string) (cache : gmap string float)
  : option string * gmap string float :=
  let cacheKey := cacheKeyOf userId milestoneType in
  let lastNotified := lastNotifiedOf cacheKey cache in
  match firstCrossing oldValue newValue lastNotified milestones with
  | Some milestone =>
      (Some (messageGenerator milestone newValue), <[cacheKey := milestone]> cache)
  | None => (None, cache)
  end.

End Core.

(** ** The change-feed handlers *)

(** One call of [sendTelegramMessage(text)], named by the first argument of
    the [console.log] that precedes it in the source. *)
Record notification := { label : string; text : string }.

(** How the promise of an [async] handler settles: it is rejected when the
    body throws.  A property read on a missing image throws; so does the
    conversion of an object that has no string conversion, which the handlers
    below do not follow (see [value]). *)
Inductive completion := Fulfilled | Rejected.

Record outcome := {
  store_after : store;
  sent : list notification;
  settled : completion
}.

Definition volumeMilestones : list float := [1000; 5000; 10000; 25000; 50000; 100000]%float.
Definition txnMilestones : list float := [10; 50; 100; 500; 1000]%float.

Section Handlers.
Context `{rt : Runtime}.

Definition userLine (username id : value) : string :=
  "User: @" +:+ escapeHtml username +:+ " (<code>" +:+ fmt id +:+ "</code>)".

Definition usersInsertMsg (user : row) : string :=
  "👤 <b>New user registered</b>" +:+ nl +:+
  "ID: <code>" +:+ ToString (get user "id") +:+ "</code>" +:+ nl +:+
  "Telegram: @" +:+ escapeHtml (get user "telegram_username") +:+ nl +:+
  "Wallet: <code>" +:+ escapeHtml (get user "wallet_address") +:+ "</code>" +:+ nl +:+
  "Deposited: <b>" +:+ fmt (get user "amount_deposited") +:+ "</b>" +:+ nl +:+
  "Copytrading: <b>" +:+
    (if truthy (get user "is_copytrading_enabled") then "Enabled" else "Disabled") +:+
    "</b>" +:+ nl +:+
  "Referral code: <code>" +:+
    escapeHtml (or_else (get user "referral_code") (Str "None")) +:+ "</code>" +:+ nl +:+
  "Created: <code>" +:+ ToString (get user "created_at") +:+ "</code>".

Definition depositMsg (username id : value) (depositAmount newAmt : float) : string :=
  "💰 <b>Deposit detected</b>" +:+ nl +:+
  userLine username id +:+ nl +:+
  "Amount: <b>+" +:+ fmt (Num depositAmount) +:+ "</b>" +:+ nl +:+
  "New total: <b>" +:+ fmt (Num newAmt) +:+ "</b>".

Definition pnlMsg (username id : value) (pnlChange newPnL : float) : string :=
  (if JsNum.gt pnlChange 0 then "📈" else "📉") +:+ " <b>Significant PnL change</b>" +:+ nl +:+
  userLine username id +:+ nl +:+
  "Change: <b>" +:+ (if JsNum.gt pnlChange 0 then "+" else "") +:+
    fmt (Num pnlChange) +:+ "</b>" +:+ nl +:+
  "Total PnL: <b>" +:+ fmt (Num newPnL) +:+ "</b>".

Definition volumeMsgOf (username id : value) (milestone current : float) : string :=
  "🎯 <b>Volume milestone reached!</b>" +:+ nl +:+
  userLine username id +:+ nl +:+
  "Milestone: <b>$" +:+ NumberToLocaleString milestone +:+ "</b>" +:+ nl +:+
  "Current volume: <b>$" +:+ fmt (Num current) +:+ "</b>".

Definition txnMsgOf (username id markets_traded : value) (milestone current : float)
  : string :=
  "🏆 <b>Trading milestone reached!</b>" +:+ nl +:+
  userLine username id +:+ nl +:+
  "Transactions: <b>" +:+ fmt (Num current) +:+ "</b>" +:+ nl +:+
  "Markets traded: <b>" +:+ fmt markets_traded +:+ "</b>".

Definition copytradingMsg (username id : value) (newCopytrading : bool) : string :=
  (if newCopytrading then "🔄" else "⏸️") +:+ " <b>Copytrading " +:+
    (if newCopytrading then "enabled" else "disabled") +:+ "</b>" +:+ nl +:+
  userLine username id.

Definition feesMsg (username id : value) (feeIncrease newFees : float) : string :=
  "💸 <b>High fees incurred</b>" +:+ nl +:+
  userLine username id +:+ nl +:+
  "Session fees: <b>$" +:+ fmt (Num feeIncrease) +:+ "</b>" +:+ nl +:+
  "Total fees: <b>$" +:+ fmt (Num newFees) +:+ "</b>".

(** [Number(row.field || 0)]. *)
Definition numericField (r : row) (field : string) : float :=
  Number (or_else (get r field) (Num 0)).

(** [if (msg) { console.log(label, ...); await sendTelegramMessage(msg); }] *)
Definition sendIfAny (lbl : string) (msg : option string) : list notification :=
  match msg with
  | Some m => if negb (String.eqb m "") then [{| label := lbl; text := m |}] else []
  | None => []
  end.

(** The blocks of the Users UPDATE handler, in source order.  Each reads
    [userNew] and [userOld]; the two milestone blocks also read and write
    [milestoneCache]. *)

(** "Deposit detection" *)
Definition depositSignal (userNew userOld : row) : list notification :=
let id := get userNew "id" in
let username := get userNew "telegram_username" in
let newAmt := numericField userNew "amount_deposited" in
let oldAmt := numericField userOld "amount_deposited" in
if JsNum.gt newAmt oldAmt && JsNum.ge oldAmt 0 then
  let depositAmount := JsNum.sub newAmt oldAmt in
  if JsNum.gt depositAmount 0.01 then
    [{| label := "Users UPDATE (deposit):";
        text := depositMsg username id depositAmount newAmt |}]
  else []
else [].

(** "PnL changes" *)
Definition pnlSignal (userNew userOld : row) : list notification :=
let id := get userNew "id" in
let username := get userNew "telegram_username" in
let newPnL := numericField userNew "total_pnl" in
let oldPnL := numericField userOld "total_pnl" in
let pnlChange := JsNum.sub newPnL oldPnL in
if JsNum.ge (JsNum.abs pnlChange) 100 then
  [{| label := "Users UPDATE (PnL change):";
      text := pnlMsg username id pnlChange newPnL |}]
else [].

(** "Volume milestones with deduplication" *)
Definition volumeSignal (userNew userOld : row) (cache : gmap string float)
  : list notification * gmap string float :=
let id := get userNew "id" in
let username := get userNew "telegram_username" in
let newVolume := numericField userNew "total_volume" in
let oldVolume := numericField userOld "total_volume" in
let '(volumeMsg, cache1) :=
  checkAndNotifyMilestone id "volume" oldVolume newVolume volumeMilestones
    (volumeMsgOf username id) cache in
(sendIfAny "Users UPDATE (volume milestone):" volumeMsg, cache1).

(** "Trading milestones with deduplication" *)
Definition txnSignal (userNew userOld : row) (cache : gmap string float)
  : list notification * gmap string float :=
let id := get userNew "id" in
let username := get userNew "telegram_username" in
let newTxns := numericField userNew "txns_executed" in
let oldTxns := numericField userOld "txns_executed" in
let '(txnMsg, cache1) :=
  checkAndNotifyMilestone id "txns" oldTxns newTxns txnMilestones
    (txnMsgOf username id (get userNew "markets_traded")) cache in
(sendIfAny "Users UPDATE (txn milestone):" txnMsg, cache1).

(** "Copytrading status changes" *)
Definition copytradingSignal (userNew userOld : row) : list notification :=
let id := get userNew "id" in
let username := get userNew "telegram_username" in
match userOld !! "is_copytrading_enabled" with
| Some oldFlag =>
    let newCopytrading := truthy (get userNew "is_copytrading_enabled") in
    let oldCopytrading := truthy oldFlag in
    if xorb newCopytrading oldCopytrading then
      [{| label := "Users UPDATE (copytrading):";
          text := copytradingMsg username id newCopytrading |}]
    else []
| None => []
end.

(** "Fee accumulation alerts" *)
Definition feesSignal (userNew userOld : row) : list notification :=
let id := get userNew "id" in
let username := get userNew "telegram_username" in
let newFees := numericField userNew "fees_total" in
let oldFees := numericField userOld "fees_total" in
let feeIncrease := JsNum.sub newFees oldFees in
if JsNum.ge feeIncrease 50 then
  [{| label := "Users UPDATE (high fees):";
      text := feesMsg username id feeIncrease newFees |}]
else [].

(** The Users UPDATE handler from "Deposit detection" to its end, for an
    event that passed the duplicate test and the old-data guard. *)
Definition usersUpdateSignals (userNew userOld : row) (cache : gmap string float)
  : gmap string float * list notification :=
let deposit := depositSignal userNew userOld in
let pnl := pnlSignal userNew userOld in
let '(volume, cache1) := volumeSignal userNew userOld cache in
let '(txns, cache2) := txnSignal userNew userOld cache1 in
let copytrading := copytradingSignal userNew userOld in
let fees := feesSignal userNew userOld in
(cache2, (deposit ++ pnl ++ volume ++ txns ++ copytrading ++ fees)%list).

Definition withCache (s : store) (cache : gmap string float) : store :=
  {| processedEvents := processedEvents s; milestoneCache := cache |}.

Definition done (s : store) (ns : list notification) : outcome :=
  {| store_after := s; sent := ns; settled := Fulfilled |}.

Definition thrown (s : store) : outcome :=
  {| store_after := s; sent := []; settled := Rejected |}.

(** [payload.old || {}]. *)
Definition oldOrEmpty (p : payload) : row := default ∅ (old p).

(** Users INSERT, after the duplicate test. *)
Definition usersInsertBody (p : payload) (s : store) : outcome :=
  match new p with
  | Some user => done s [{| label := "Users INSERT:"; text := usersInsertMsg user |}]
  | None => thrown s
  end.

(** Users UPDATE, after the duplicate test. *)
Definition usersUpdateBody (p : payload) (s : store) : outcome :=
  match new p with
  | None => thrown s                      (* userNew.id *)
  | Some userNew =>
      let userOld := oldOrEmpty p in
      let hasRelevantOldData := (1 <? size userOld)%nat in
      if negb hasRelevantOldData then done s []
      else
        let '(cache, ns) := usersUpdateSignals userNew userOld (milestoneCache s) in
        done (withCache s cache) ns
  end.

Definition tradeUserLine (r : row) : string :=
  "User: <code>" +:+ escapeHtml (Str (fmt (get r "user_id"))) +:+ "</code>".

Definition tradeMarketLine (r : row) : string :=
  "Market: <b>" +:+ escapeHtml (get r "market_title") +:+ "</b>".

Definition tradeSideLine (r : row) : string :=
  "Side: <b>" +:+ escapeHtml (get r "side") +:+ "</b>".

Definition tradeExecutedMsg (trade : row) : string :=
  "✅ <b>Trade executed successfully</b>" +:+ nl +:+
  tradeUserLine trade +:+ nl +:+
  tradeMarketLine trade +:+ nl +:+
  tradeSideLine trade +:+ nl +:+
  "Size: <b>" +:+ fmt (or_else (get trade "copied_size") (get trade "original_size")) +:+
    "</b> @ <b>" +:+
    fmt (or_else (get trade "copied_price") (get trade "original_price")) +:+ "</b>" +:+ nl +:+
  "Trade hash: <code>" +:+ escapeHtml (get trade "copied_trade_hash") +:+ "</code>".

Definition tradeFailedMsg (trade : row) : string :=
  "❌ <b>Trade failed</b>" +:+ nl +:+
  tradeUserLine trade +:+ nl +:+
  tradeMarketLine trade +:+ nl +:+
  tradeSideLine trade +:+ nl +:+
  "Error: <code>" +:+
    escapeHtml (or_else (get trade "error_message") (Str "Unknown error")) +:+
    "</code>" +:+ nl +:+
  "Original hash: <code>" +:+ escapeHtml (get trade "original_trade_hash") +:+ "</code>".

Definition tradeSkippedMsg (trade : row) : string :=
  "⏭️ <b>Trade skipped</b>" +:+ nl +:+
  tradeUserLine trade +:+ nl +:+
  tradeMarketLine trade +:+ nl +:+
  "Reason: <code>" +:+
    escapeHtml (or_else (get trade "error_message") (Str "Trade conditions not met")) +:+
    "</code>".

Definition tradeInsertMsg (t : row) : string :=
  "🆕 <b>New trade detected</b>" +:+ nl +:+
  tradeUserLine t +:+ nl +:+
  tradeMarketLine t +:+ nl +:+
  "Outcome: <b>" +:+ escapeHtml (get t "outcome") +:+ "</b>" +:+ nl +:+
  tradeSideLine t +:+ nl +:+
  "Original hash: <code>" +:+ escapeHtml (get t "original_trade_hash") +:+ "</code>" +:+ nl +:+
  "Size: <b>" +:+ escapeHtml (Str (fmt (get t "original_size"))) +:+ "</b> @ <b>" +:+
    escapeHtml (Str (fmt (get t "original_price"))) +:+ "</b>" +:+ nl +:+
  "Position %: <b>" +:+ fmt (get t "position_percentage") +:+ "%</b>" +:+ nl +:+
  "Status: <b>" +:+ escapeHtml (get t "status") +:+ "</b>" +:+ nl +:+
  "Watched wallet: <code>" +:+ escapeHtml (get t "watched_wallet") +:+ "</code>".

Definition walletLine (r : row) : string :=
  "Wallet: <code>" +:+ escapeHtml (get r "wallet_address") +:+ "</code>".

(** [fmt(v * 100)] *)
Definition percent (v : value) : string :=
  fmt (Num (JsNum.mul (Number v) 100)).

Definition walletInsertMsg (wallet : row) : string :=
  "👁️ <b>New wallet added for copying</b>" +:+ nl +:+
  tradeUserLine wallet +:+ nl +:+
  walletLine wallet +:+ nl +:+
  "Copy ratio: <b>" +:+ percent (get wallet "percent_ratio") +:+ "%</b>" +:+ nl +:+
  "Status: <b>" +:+ (if truthy (get wallet "is_enabled") then "Enabled" else "Disabled") +:+
    "</b>".

Definition walletEnabledMsg (walletNew : row) (newEnabled : value) : string :=
  (if truthy newEnabled then "✅" else "❌") +:+ " <b>Copy wallet " +:+
    (if truthy newEnabled then "enabled" else "disabled") +:+ "</b>" +:+ nl +:+
  tradeUserLine walletNew +:+ nl +:+
  walletLine walletNew +:+ nl +:+
  "Copy ratio: <b>" +:+ percent (get walletNew "percent_ratio") +:+ "%</b>".

Definition walletRatioMsg (walletNew : row) (oldRatio newRatio : value) : string :=
  "⚙️ <b>Copy ratio updated</b>" +:+ nl +:+
  tradeUserLine walletNew +:+ nl +:+
  walletLine walletNew +:+ nl +:+
  "Old ratio: <b>" +:+ percent oldRatio +:+ "%</b> → <b>" +:+ percent newRatio +:+ "%</b>".

Definition monthlyInsertMsg (record : row) : string :=
  "📊 <b>Monthly active user recorded</b>" +:+ nl +:+
  tradeUserLine record +:+ nl +:+
  "Month: <b>" +:+ ToString (get record "month_number") +:+ "/" +:+
    ToString (get record "year") +:+ "</b>" +:+ nl +:+
  "Transactions: <b>" +:+ fmt (get record "transaction_count") +:+ "</b>".

(** [String(image?.status || '').toLowerCase()] *)
Definition statusOf (image : option row) : string :=
  toLowerCase (ToString (or_else (get_opt image "status") (Str ""))).

(** Auto_Trade UPDATE, after the duplicate test.  [trade] is read only
    inside the three branches. *)
Definition autoTradeUpdateBody (p : payload) (s : store) : outcome :=
  let status := statusOf (new p) in
  let prevStatus := statusOf (old p) in
  let emit (lbl : string) (msg : row -> string) : outcome :=
    match new p with
    | Some trade => done s [{| label := lbl; text := msg trade |}]
    | None => thrown s
    end in
  if negb (String.eqb status prevStatus) then
    if String.eqb status "executed" then
      emit "Auto_Trade UPDATE (executed):" tradeExecutedMsg
    else if String.eqb status "failed" then
      emit "Auto_Trade UPDATE (failed):" tradeFailedMsg
    else if String.eqb status "skipped" then
      emit "Auto_Trade UPDATE (skipped):" tradeSkippedMsg
    else done s []
  else done s [].

(** Auto_Trade INSERT, after the duplicate test. *)
Definition autoTradeInsertBody (p : payload) (s : store) : outcome :=
  match new p with
  | Some t => done s [{| label := "Auto_Trade INSERT:"; text := tradeInsertMsg t |}]
  | None => thrown s
  end.

(** Copy_Wallets INSERT, after the duplicate test. *)
Definition copyWalletsInsertBody (p : payload) (s : store) : outcome :=
  match new p with
  | Some wallet =>
      done s [{| label := "Copy_Wallets INSERT:"; text := walletInsertMsg wallet |}]
  | None => thrown s
  end.

(** Copy_Wallets UPDATE, after the duplicate test.  The old-data guard
    comes before the first read of [walletNew]. *)
Definition copyWalletsUpdateBody (p : payload) (s : store) : outcome :=
  let walletOld := oldOrEmpty p in
  if (size walletOld <=? 1)%nat then done s []
  else
    match new p with
    | None => thrown s
    | Some walletNew =>
        let newEnabled := get walletNew "is_enabled" in
        let oldEnabled := get walletOld "is_enabled" in
        let newRatio := get walletNew "percent_ratio" in
        let oldRatio := get walletOld "percent_ratio" in
        if strict_neq newEnabled oldEnabled then
          done s [{| label := "Copy_Wallets UPDATE (enabled/disabled):";
                     text := walletEnabledMsg walletNew newEnabled |}]
        else if JsNum.gt (JsNum.abs (JsNum.sub (Number newRatio) (Number oldRatio))) 0.001
        then
          done s [{| label := "Copy_Wallets UPDATE (ratio change):";
                     text := walletRatioMsg walletNew oldRatio newRatio |}]
        else done s []
    end.

(** Monthly_Active_Users INSERT, after the duplicate test. *)
Definition monthlyInsertBody (p : payload) (s : store) : outcome :=
  match new p with
  | Some record =>
      done s [{| label := "Monthly_Active_Users INSERT:"; text := monthlyInsertMsg record |}]
  | None => thrown s
  end.

(** The opening of every handler:
    [const eventId = generateEventId(table, event, payload);
     if (isDuplicateEvent(eventId)) { console.log(...); return; }] *)
Definition deduplicated (t : table) (event : operation)
    (body : payload -> store -> outcome) (p : payload) (now : Z) (s : store) : outcome :=
  let eventId := generateEventId t event p now in
  let '(duplicate, s1) := isDuplicateEvent eventId now s in
  if duplicate then done s1 [] else body p s1.

(** The body registered on [dbChannel] for a table and an operation;
    Monthly_Active_Users UPDATE has no subscription. *)
Definition handlerBody (t : table) (event : operation)
  : option (payload -> store -> outcome) :=
  match t, event with
  | Users, INSERT => Some usersInsertBody
  | Users, UPDATE => Some usersUpdateBody
  | Auto_Trade, UPDATE => Some autoTradeUpdateBody
  | Auto_Trade, INSERT => Some autoTradeInsertBody
  | Copy_Wallets, INSERT => Some copyWalletsInsertBody
  | Copy_Wallets, UPDATE => Some copyWalletsUpdateBody
  | Monthly_Active_Users, INSERT => Some monthlyInsertBody
  | Monthly_Active_Users, UPDATE => None
  end.

(** Delivery of one change event to the process at clock reading [now]. *)
Definition onChange (t : table) (event : operation) (p : payload) (now : Z) (s : store)
  : outcome :=
  match handlerBody t event with
  | Some body => deduplicated t event body p now s
  | None => done s []
  end.

End Handlers.

(** ** The queue poll loop *)

Record message := { Body : string; ReceiptHandle : string }.

(** What one run of [pollSQSMessages] does to the outside, in order.  A log
    line is named by its literal text. *)
Inductive effect :=
| LogInfo (line : string)
| LogError (line : string)
| SendMessage (text : string)
| DeleteMessage (receiptHandle : string)
| SetTimeout (ms : Z).

(** How [sqs.receiveMessage(params).promise()] settles. *)
Inductive receive_result :=
| ReceiveRejected
| ReceiveResolved (Messages : option (list message)).

Section Queue.
Context `{rt : Runtime}.

(** [statusEmoji[status]]: an own entry of the literal, else whatever a
    plain object inherits under that name. *)
Definition statusEmoji (key : string) : value :=
  if String.eqb key "matched" then Str "✅"
  else if String.eqb key "filled" then Str "✅"
  else if String.eqb key "partial" then Str "⚠️"
  else if String.eqb key "cancelled" then Str "❌"
  else if String.eqb key "failed" then Str "❌"
  else if String.eqb key "pending" then Str "⏳"
  else ObjectPrototype key.

Definition isYES (side : value) : bool :=
  match side with
  | Str s => String.eqb s "YES"
  | _ => false
  end.

Definition orderMsg (orderData : row) : string :=
  let userId := get orderData "userId" in
  let username := get orderData "username" in
  let orderId := get orderData "orderId" in
  let side := get orderData "side" in
  let marketQuestion := get orderData "marketQuestion" in
  let amount := get orderData "amount" in
  let shares := get orderData "shares" in
  let executionPrice := get orderData "executionPrice" in
  let txHash := get orderData "txHash" in
  let timestamp := get orderData "timestamp" in
  let status := get orderData "status" in
  let outcome := get orderData "outcome" in
  let sideEmoji := if isYES side then "🟢" else "🔴" in
  let emoji := or_else (statusEmoji (ToString status)) (Str "📊") in
  ToString emoji +:+ " <b>Order " +:+ ToString status +:+ "</b> " +:+ sideEmoji +:+ nl +:+
  "User: @" +:+ escapeHtml username +:+ " (<code>" +:+ escapeHtml userId +:+ "</code>)" +:+ nl +:+
  "Market: <b>" +:+ escapeHtml marketQuestion +:+ "</b>" +:+ nl +:+
  "Side: <b>" +:+ escapeHtml side +:+ "</b> | Outcome: <b>" +:+ escapeHtml outcome +:+
    "</b>" +:+ nl +:+
  "Amount: <b>$" +:+ fmt amount +:+ "</b> | Shares: <b>" +:+ fmt shares +:+ "</b>" +:+ nl +:+
  "Price: <b>" +:+ fmt executionPrice +:+ "</b>" +:+ nl +:+
  "Order ID: <code>" +:+ escapeHtml orderId +:+ "</code>" +:+ nl +:+
  "TX Hash: <code>" +:+ escapeHtml txHash +:+ "</code>" +:+ nl +:+
  "Time: <code>" +:+ escapeHtml timestamp +:+ "</code>".

(** bot.js, [processSQSOrder]: destructuring [null] throws before anything
    is logged or sent. *)
Definition processSQSOrder (orderData : option row) : list effect * completion :=
  match orderData with
  | None => ([], Rejected)
  | Some r => ([LogInfo "Processing SQS order:"; SendMessage (orderMsg r)], Fulfilled)
  end.

(** [await sqs.deleteMessage({...}).promise()]; [answers] lists how the
    successive delete calls of this run settle ([true]: resolved), and a
    call past its end resolves. *)
Definition deleteMessage (receiptHandle : string) (answers : list bool)
  : list effect * list bool * completion :=
  ([DeleteMessage receiptHandle], tail answers,
   if default true (head answers) then Fulfilled else Rejected).

(** The [catch (parseError)] block of the loop body. *)
Definition onParseError (m : message) (answers : list bool)
  : list effect * list bool * completion :=
  let '(del, answers1, c) := deleteMessage (ReceiptHandle m) answers in
  ([LogError "Error parsing SQS message:"; LogInfo "Raw message body:"] ++ del, answers1, c)%list.

(** The body of [for (const message of data.Messages)]. *)
Definition processMessage (m : message) (answers : list bool)
  : list effect * list bool * completion :=
  match JSON_parse (Body m) with
  | SyntaxError => onParseError m answers
  | ParsedNull =>
      let '(tr, _) := processSQSOrder None in
      let '(tr1, answers1, c) := onParseError m answers in
      (tr ++ tr1, answers1, c)%list
  | Parsed r =>
      let '(tr, _) := processSQSOrder (Some r) in
      let '(del, answers1, c) := deleteMessage (ReceiptHandle m) answers in
      match c with
      | Fulfilled => (tr ++ del, answers1, Fulfilled)%list
      | Rejected =>
          let '(tr1, answers2, c1) := onParseError m answers1 in
          (tr ++ del ++ tr1, answers2, c1)%list
      end
  end.

Fixpoint forEachMessage (msgs : list message) (answers : list bool)
  : list effect * completion :=
  match msgs with
  | [] => ([], Fulfilled)
  | m :: rest =>
      let '(tr, answers1, c) := processMessage m answers in
      match c with
      | Fulfilled =>
          let '(tr1, c1) := forEachMessage rest answers1 in ((tr ++ tr1)%list, c1)
      | Rejected => (tr, Rejected)
      end
  end.

(** bot.js, [pollSQSMessages]: one run, up to the [setTimeout] that
    schedules the next one. *)
Definition pollSQSMessages (received : receive_result) (answers : list bool)
  : list effect :=
  (match received with
   | ReceiveRejected => [LogError "Error polling SQS:"]
   | ReceiveResolved None | ReceiveResolved (Some []) => []
   | ReceiveResolved (Some msgs) =>
       let '(tr, c) := forEachMessage msgs answers in
       LogInfo "Received" :: tr ++
         match c with
         | Fulfilled => []
         | Rejected => [LogError "Error polling SQS:"]
         end
   end ++ [SetTimeout 1000])%list.

End Queue.

(** ** The process as a whole *)

(** What reaches the process: a tick of the sweep timer, or a change event
    delivered by the feed, each with the clock reading at that moment. *)
Inductive input :=
| Tick (now : Z)
| Change (t : table) (event : operation) (p : payload) (now : Z).

Section Process.
Context `{rt : Runtime}.

Definition step (i : input) (s : store) : outcome :=
  match i with
  | Tick now => done (sweep now s) []
  | Change t event p now => onChange t event p now s
  end.

(** The store after a sequence of inputs. *)
Definition run (tr : list input) (s : store) : store :=
  foldl (fun acc i => store_after (step i acc)) s tr.

(** The event id the process derives for an input, if it derives one. *)
Definition keyOf (i : input) : option string :=
  match i with
  | Tick _ => None
  | Change t event p now =>
      match handlerBody t event with
      | Some _ => Some (generateEventId t event p now)
      | None => None
      end
  end.

End Process.

(** ** The start-up check *)

(** How the top of the script ends: [process.exit(code)] after an error
    line, or the script goes on. *)
Inductive startup := Exit (code : Z) (message : string) | Started.

(** [!process.env.NAME] is false: the variable is set and not empty. *)
Definition isSet (env : gmap string string) (name : string) : bool :=
  match env !! name with
  | Some v => negb (String.eqb v "")
  | None => false
  end.

(** bot.js, the two checks of the environment before anything is created. *)
Definition checkEnvironment (env : gmap string string) : startup :=
  if negb (isSet env "SUPABASE_URL") || negb (isSet env "SUPABASE_KEY")
     || negb (isSet env "TELEGRAM_TOKEN") || negb (isSet env "CHAT_ID")
  then Exit 1 "Missing required environment variables."
  else if negb (isSet env "AWS_REGION") || negb (isSet env "AWS_ACCESS_KEY_ID")
          || negb (isSet env "AWS_SECRET_ACCESS_KEY") || negb (isSet env "SQS_QUEUE_URL")
  then Exit 1 "Missing required AWS/SQS environment variables."
  else Started.

(** ** The Auto_Trade UPDATE handler of the earlier variant *)

Section Legacy.
Context `{rt : Runtime}.

(** The handler on channel [auto-trade-update] of the variant of the script
    that has no duplicate store: what it sends and how it settles. *)
Definition legacyAutoTradeUpdate (p : payload) : list notification * completion :=
  let status := statusOf (new p) in
  let prevStatus := statusOf (old p) in
  let emit (lbl : string) (msg : row -> string) : list notification * completion :=
    match new p with
    | Some trade => ([{| label := lbl; text := msg trade |}], Fulfilled)
    | None => ([], Rejected)
    end in
  if String.eqb status "executed" && negb (String.eqb prevStatus "executed") then
    emit "Auto_Trade UPDATE (executed):" tradeExecutedMsg
  else if String.eqb status "failed" && negb (String.eqb prevStatus "failed") then
    emit "Auto_Trade UPDATE (failed):" tradeFailedMsg
  else if String.eqb status "skipped" && negb (String.eqb prevStatus "skipped") then
    emit "Auto_Trade UPDATE (skipped):" tradeSkippedMsg
  else ([], Fulfilled).

End Legacy.

(** ** A runtime for the worked examples

    The examples run the handlers on concrete rows and so need the built-ins
    to compute.  [example_runtime] implements them on the part of their
    domain that the examples reach, following ECMAScript there:
    - [toLowerCase] on ASCII strings;
    - [NumberToString] on [NaN], the infinities, zero, and every number of
      magnitude at least 1e-6 whose shortest decimal form has a mantissa
      below 2^53 and at most 22 fractional digits (all integers below 2^53
      and all short decimals);
    - [NumberToLocaleString] on non-negative integers below 2^53, with the
      en-US grouping of Node.js;
    - [StringToNumber] on the empty string, on signed decimal numerals
      without exponent whose digits stay below 2^53, on [Infinity], and on
      every string that does not begin like a numeric literal (NaN);
    - [ObjectPrototype] on every property name;
    - [JSON_parse] on [null], on [{}] and on every body whose first character
      cannot begin a JSON text.
    Outside these domains the functions return a placeholder; no example
    feeds them such an argument. *)

Module ExampleRuntime.

Definition ofN (n : N) : float := PrimFloat.of_uint63 (Uint63.of_Z (Z.of_N n)).

(** The integer nearest to [m * 2^e * 10^d], ties to even. *)
Definition scaled (m : positive) (e : Z) (d : nat) : N :=
  let num := (Npos m * 10 ^ N.of_nat d)%N in
  if (0 <=? e)%Z then (num * 2 ^ Z.to_N e)%N
  else
    let den := (2 ^ Z.to_N (- e))%N in
    let q := (num / den)%N in
    let r := (num mod den)%N in
    if (2 * r <? den)%N then q
    else if (den <? 2 * r)%N then (q + 1)%N
    else if N.even q then q else (q + 1)%N.

(** The least [d] for which the [d]-digit decimal nearest to [a] reads
    back as [a], with that decimal's digits. *)
Fixpoint shortest (a : float) (m : positive) (e : Z) (d fuel : nat) : option (N * nat) :=
  match fuel with
  | O => None
  | S fuel' =>
      let k := scaled m e d in
      if (k <? 2 ^ 53)%N && PrimFloat.eqb (PrimFloat.div (ofN k) (ofN (10 ^ N.of_nat d))) a
      then Some (k, d)
      else shortest a m e (S d) fuel'
  end.

Definition digitsOf (k : N) : string := NilZero.string_of_uint (N.to_uint k).

Fixpoint zeros (n : nat) : string :=
  match n with
  | O => ""
  | S n' => String "0" (zeros n')
  end.

Definition placeholder : string := "?".

Definition decimal (k : N) (d : nat) : string :=
  let digits := digitsOf k in
  let len := String.length digits in
  if (d =? 0)%nat then digits
  else if (d <? len)%nat then
    String.substring 0 (len - d) digits +:+ "." +:+ String.substring (len - d) d digits
  else if (d - len <? 6)%nat then "0." +:+ zeros (d - len) +:+ digits
  else placeholder.

Definition NumberToString (x : float) : string :=
  match Prim2SF x with
  | S754_nan => "NaN"
  | S754_infinity false => "Infinity"
  | S754_infinity true => "-Infinity"
  | S754_zero _ => "0"
  | S754_finite s m e =>
      match shortest (PrimFloat.abs x) m e 0 23 with
      | Some (k, d) => (if s then "-" else "") +:+ decimal k d
      | None => placeholder
      end
  end.

Fixpoint group3 (rev_digits : list ascii) : list ascii :=
  match rev_digits with
  | a :: b :: c :: ((_ :: _) as rest) => a :: b :: c :: ","%char :: group3 rest
  | _ => rev_digits
  end.

Definition NumberToLocaleString (x : float) : string :=
  match Prim2SF x with
  | S754_finite false m e =>
      match shortest x m e 0 1 with
      | Some (k, _) =>
          string_of_list_ascii (rev (group3 (rev (list_ascii_of_string (digitsOf k)))))
      | None => placeholder
      end
  | S754_zero _ => "0"
  | _ => placeholder
  end.

Definition lowerAscii (a : ascii) : ascii :=
  let n := nat_of_ascii a in
  if (65 <=? n)%nat && (n <=? 90)%nat then ascii_of_nat (n + 32) else a.

Fixpoint toLowerCase (s : string) : string :=
  match s with
  | EmptyString => EmptyString
  | String a s' => String (lowerAscii a) (toLowerCase s')
  end.

(** The part of [s] before the first [.] and the part after it. *)
Fixpoint splitDot (s : string) : string * option string :=
  match s with
  | EmptyString => (EmptyString, None)
  | String a s' =>
      if Ascii.eqb a "." then (EmptyString, Some s')
      else let '(i, f) := splitDot s' in (String a i, f)
  end.

Definition unsignedNumeral (s : string) : float :=
  if String.eqb s "Infinity" then infinity
  else
    let '(i, f) := splitDot s in
    let f := default "" f in
    if String.eqb (i +:+ f) "" then nan
    else
      match NilEmpty.uint_of_string (i +:+ f) with
      | Some digits =>
          PrimFloat.div (ofN (N.of_uint digits)) (ofN (10 ^ N.of_nat (String.length f)))
      | None => nan
      end.

Definition StringToNumber (s : string) : float :=
  match s with
  | EmptyString => 0%float
  | String "-" s' => PrimFloat.opp (unsignedNumeral s')
  | String "+" s' => unsignedNumeral s'
  | _ => unsignedNumeral s
  end.

Definition nativeFunction (name : string) : value :=
  Obj ("function " +:+ name +:+ "() { [native code] }").

Definition ObjectPrototype (key : string) : value :=
  if String.eqb key "constructor" then nativeFunction "Object"
  else if String.eqb key "__proto__" then Obj "[object Object]"
  else if existsb (String.eqb key)
            ["toString"; "toLocaleString"; "valueOf"; "hasOwnProperty"; "isPrototypeOf";
             "propertyIsEnumerable"; "__defineGetter__"; "__defineSetter__";
             "__lookupGetter__"; "__lookupSetter__"]
       then nativeFunction key
  else Undefined.

(** Whether [c] can be the first character of a JSON text. *)
Definition beginsJson (c : ascii) : bool :=
  existsb (Ascii.eqb c)
    (list_ascii_of_string "{[-0123456789tfn" ++
     [" "%char; ascii_of_nat 9; ascii_of_nat 10; ascii_of_nat 13; ascii_of_nat 34]).

Definition JSON_parse (s : string) : parse_result :=
  if String.eqb s "null" then ParsedNull
  else
    match s with
    | EmptyString => SyntaxError
    | String c _ => if beginsJson c then Parsed ∅ else SyntaxError
    end.

End ExampleRuntime.

Definition example_runtime : Runtime :=
  {| NumberToString := ExampleRuntime.NumberToString;
     NumberToLocaleString := ExampleRuntime.NumberToLocaleString;
     StringToNumber := ExampleRuntime.StringToNumber;
     toLowerCase := ExampleRuntime.toLowerCase;
     ObjectPrototype := ExampleRuntime.ObjectPrototype;
     JSON_parse := ExampleRuntime.JSON_parse |}.



(** ** Vocabulary of the statements *)

(** The entity that the three passes together give to one character. *)
Definition entityOf (a : ascii) : string :=
  if Ascii.eqb a "&" then "&amp;"
  else if Ascii.eqb a "<" then "&lt;"
  else if Ascii.eqb a ">" then "&gt;"
  else String a EmptyString.

Fixpoint encode (s : string) : string :=
  match s with
  | EmptyString => EmptyString
  | String a s' => entityOf a +:+ encode s'
  end.

(** A ladder whose entries increase strictly from one to the next. *)
Fixpoint ascending (ms : list float) : bool :=
  match ms with
  | a :: ((b :: _) as rest) => JsNum.lt a b && ascending rest
  | _ => true
  end.

(** The clock reading that comes with an input. *)
Definition clock (i : input) : Z :=
match i with
| Tick now => now
| Change _ _ _ now => now
end.

(** In [tr] the sweep timer fires at least once in every stretch of
    [period] milliseconds between [from] and [to]. *)
Definition ticksEvery (period from to : Z) (tr : list input) : Prop :=
  forall T, (from <= T)%Z -> (T + period <= to)%Z ->
    exists now, Tick now ∈ tr /\ (T < now <= T + period)%Z.

(** Whether a notification named [lbl] is among [ns]. *)
Definition emitted (lbl : string) (ns : list notification) : bool :=
existsb (fun n => String.eqb (label n) lbl) ns.


(** Whether an effect is a chat-send call. *)
Definition isSend (e : effect) : bool :=
match e with
| SendMessage _ => true
| _ => false
end.

(** An input that is no sweep later than [limit]: a delivery, at any clock
    reading, or a run of the sweep at a clock reading up to [limit]. *)
Definition noSweepAfter (limit : Z) (i : input) : Prop :=
  match i with
  | Tick now => (now <= limit)%Z
  | Change _ _ _ _ => True
  end.

(** The clock readings of [tr] never go back, starting from [c]. *)
Fixpoint clocksFrom (c : Z) (tr : list input) : Prop :=
  match tr with
  | [] => True
  | i :: rest => (c <= clock i)%Z /\ clocksFrom (clock i) rest
  end.

(** The clock reading of the last input of [tr], [c] when there is none. *)
Definition lastClock (c : Z) (tr : list input) : Z :=
  foldl (fun _ i => clock i) c tr.

(** No event of the duplicate store was first seen after [c]. *)
Definition notLaterThan (c : Z) (s : store) : Prop :=
  forall k ts, processedEvents s !! k = Some ts -> (ts <= c)%Z.

(** The arguments of one call of [checkAndNotifyMilestone]. *)
Record milestoneCall := {
  callUser : value;
  callType : string;
  callOld : float;
  callNew : float;
  callLadder : list float;
  callGenerator : float -> float -> string
}.

(** [a] is [b] or is below it. *)
Definition atLeast (a b : float) : Prop := a = b \/ JsNum.lt a b = true.

Section Calls.
Context `{rt : Runtime}.

Definition applyCall (c : milestoneCall) (cache : gmap string float)
  : option string * gmap string float :=
  checkAndNotifyMilestone (callUser c) (callType c) (callOld c) (callNew c)
    (callLadder c) (callGenerator c) cache.

(** The cache after a sequence of calls. *)
Definition runCalls (calls : list milestoneCall) (cache : gmap string float)
  : gmap string float :=
  foldl (fun acc c => (applyCall c acc).2) cache calls.

End Calls.

(** The names of the Users UPDATE notifications, in the order of the blocks. *)
Definition usersUpdateLabels : list string :=
  ["Users UPDATE (deposit):"; "Users UPDATE (PnL change):";
   "Users UPDATE (volume milestone):"; "Users UPDATE (txn milestone):";
   "Users UPDATE (copytrading):"; "Users UPDATE (high fees):"].

(** How often [c] occurs in [s]. *)
Fixpoint countChar (c : ascii) (s : string) : nat :=
  match s with
  | EmptyString => 0
  | String a s' => (if Ascii.eqb a c then 1 else 0) + countChar c s'
  end.

(** Whether an effect is a delete call for [receiptHandle]. *)
Definition isDelete (receiptHandle : string) (e : effect) : bool :=
  match e with
  | DeleteMessage h => String.eqb h receiptHandle
  | _ => false
  end.

Definition isAnyDelete (e : effect) : bool :=
  match e with
  | DeleteMessage _ => true
  | _ => false
  end.

Definition isTimeout (e : effect) : bool :=
  match e with
  | SetTimeout _ => true
  | _ => false
  end.

Definition countIf {A} (f : A -> bool) (l : list A) : nat := length (List.filter f l).

(** Every record that [JSON.parse] yields for a message of [msgs] holds
    primitives, so that [processSQSOrder] builds its text without a
    conversion that throws. *)
Definition primitiveRecords `{rt : Runtime} (msgs : list message) : Prop :=
  Forall (fun m => forall r, JSON_parse (Body m) = Parsed r -> primitiveRow r = true) msgs.

(** The eight variables the script reads from the environment. *)
Definition requiredVariables : list string :=
  ["SUPABASE_URL"; "SUPABASE_KEY"; "TELEGRAM_TOKEN"; "CHAT_ID";
   "AWS_REGION"; "AWS_ACCESS_KEY_ID"; "AWS_SECRET_ACCESS_KEY"; "SQS_QUEUE_URL"].

(** ** Data of the worked examples *)

(** A clock reading of November 2023, in milliseconds. *)
Definition T0 : Z := 1700000000000.

Definition signup : payload :=
  {| new := Some (list_to_map
       [("id", Str "u1"); ("telegram_username", Str "alice");
        ("wallet_address", Str "0xabc"); ("amount_deposited", Num 0);
        ("created_at", Str "2024-01-01T00:00:00Z")]);
     old := None |}.

Definition volumeUpdate (updated_at : string) (before after : float) : payload :=
  {| new := Some (list_to_map
       [("id", Str "u1"); ("telegram_username", Str "alice");
        ("total_volume", Num after); ("updated_at", Str updated_at)]);
     old := Some (list_to_map [("id", Str "u1"); ("total_volume", Num before)]) |}.

Definition minuteTicks : list input :=
  map (fun n => Tick (T0 + 60000 * n)) [1; 2; 3; 4; 5]%Z.

Definition depositUpdate (before after : value) : payload :=
  {| new := Some (list_to_map
       [("id", Str "u1"); ("telegram_username", Str "alice");
        ("amount_deposited", after); ("updated_at", Str "2024-01-01T00:00:05Z")]);
     old := Some (list_to_map [("id", Str "u1"); ("amount_deposited", before)]) |}.

Definition tradeExecuted : payload :=
  {| new := Some (list_to_map
       [("id", Str "t1"); ("user_id", Str "u1"); ("market_title", Str "Rain tomorrow?");
        ("side", Str "YES"); ("status", Str "executed");
        ("updated_at", Str "2024-01-01T00:00:07Z")]);
     old := Some (list_to_map [("id", Str "t1")]) |}.

(** A Users UPDATE of one column, with the primary key in the old image. *)
Definition columnUpdate (column : string) (before after : value) : payload :=
  {| new := Some (list_to_map
       [("id", Str "u1"); ("telegram_username", Str "alice"); (column, after);
        ("updated_at", Str "2024-01-01T00:00:09Z")]);
     old := Some (list_to_map [("id", Str "u1"); (column, before)]) |}.

(** The row of a user whose table keeps [created_at] and no [updated_at]. *)
Definition userRow (total_pnl : float) : row :=
  list_to_map
    [("id", Str "u1"); ("telegram_username", Str "alice");
     ("amount_deposited", Num 1000.5); ("total_pnl", Num total_pnl);
     ("created_at", Str "2024-01-01T00:00:00Z")].

Definition pnlUpdate (before after : float) : payload :=
  {| new := Some (userRow after);
     old := Some (userRow before) |}.

Definition walletUpdate : payload :=
  {| new := Some (list_to_map
       [("id", Str "w1"); ("user_id", Str "u1"); ("wallet_address", Str "0xdef");
        ("is_enabled", Bool true); ("percent_ratio", Num 50);
        ("updated_at", Str "2024-01-01T00:00:11Z")]);
     old := Some (list_to_map
       [("id", Str "w1"); ("is_enabled", Bool false); ("percent_ratio", Num 25)]) |}.

Definition volumeCall (before after : float) : milestoneCall :=
  {| callUser := Str "u1"; callType := "volume"; callOld := before; callNew := after;
     callLadder := volumeMilestones;
     callGenerator := volumeMsgOf (rt := example_runtime) (Str "alice") (Str "u1") |}.

Definition txnCall (before after : float) : milestoneCall :=
  {| callUser := Str "u1"; callType := "txns"; callOld := before; callNew := after;
     callLadder := txnMilestones;
     callGenerator := txnMsgOf (rt := example_runtime) (Str "alice") (Str "u1") (Num 3) |}.

(** A body that is no JSON text, an empty order, and a second body that is
    no JSON text. *)
Definition brokenMessage : message := {| Body := "oops"; ReceiptHandle := "rh-1" |}.
Definition emptyOrder : message := {| Body := "{}"; ReceiptHandle := "rh-2" |}.
Definition brokenAgain : message := {| Body := "hello"; ReceiptHandle := "rh-3" |}.

(** * Properties *)

(** ** Facts about binary64 comparisons *)

Module Binary64.
Import JsNum.

(** Case analysis on three specification floats, down to the order of
    their exponents and mantissas. *)
Ltac compare_three a b c :=
  destruct a as [sa|sa| |sa ma ea], b as [sb|sb| |sb mb eb], c as [sc|sc| |sc mc ec];
  simpl; try discriminate; try (destruct sa, sb, sc; simpl; congruence);
  destruct sa, sb, sc; simpl; try congruence;
  destruct (Z.compare_spec ea eb), (Z.compare_spec eb ec), (Z.compare_spec ea ec);
  simpl; try congruence; try lia; subst;
  change (PosDef.Pos.compare_cont Eq) with Pos.compare;
  destruct (Pos.compare_spec ma mb), (Pos.compare_spec mb mc), (Pos.compare_spec ma mc);
  simpl; try congruence; try lia.

(** The order of the specification floats is a lexicographic order on
    sign, exponent and mantissa, hence transitive. *)
Lemma SFcompare_Lt_trans a b c :
  SFcompare a b = Some Lt -> SFcompare b c = Some Lt -> SFcompare a c = Some Lt.
Proof.
  compare_three a b c.
Qed.

Lemma SFcompare_Eq_Lt_trans a b c :
  SFcompare a b = Some Eq -> SFcompare b c = Some Lt -> SFcompare a c = Some Lt.
Proof.
  compare_three a b c.
Qed.

Lemma SFcompare_Lt_Eq_trans a b c :
  SFcompare a b = Some Lt -> SFcompare b c = Some Eq -> SFcompare a c = Some Lt.
Proof.
  compare_three a b c.
Qed.

Lemma SFcompare_Eq_trans a b c :
  SFcompare a b = Some Eq -> SFcompare b c = Some Eq -> SFcompare a c = Some Eq.
Proof.
  compare_three a b c.
Qed.

Lemma SFcompare_not_Lt_refl a : SFcompare a a <> Some Lt.
Proof.
  destruct a as [s|s| |s m e]; simpl; try discriminate; try (destruct s; discriminate).
  rewrite Z.compare_refl.
  change (PosDef.Pos.compare_cont Eq) with Pos.compare.
  rewrite Pos.compare_refl. destruct s; discriminate.
Qed.

Lemma lt_view a b : lt a b = true <-> SFcompare (Prim2SF a) (Prim2SF b) = Some Lt.
Proof.
  unfold lt. rewrite FloatAxioms.ltb_spec. unfold SFltb.
  destruct (SFcompare _ _) as [[]|]; split; congruence.
Qed.

Lemma ge_view a b :
  ge a b = true <->
  SFcompare (Prim2SF b) (Prim2SF a) = Some Lt \/ SFcompare (Prim2SF b) (Prim2SF a) = Some Eq.
Proof.
  unfold ge. rewrite FloatAxioms.leb_spec. unfold SFleb.
  destruct (SFcompare _ _) as [[]|]; split; intros; try congruence; auto;
    destruct H; congruence.
Qed.

Lemma lt_trans a b c : lt a b = true -> lt b c = true -> lt a c = true.
Proof. rewrite !lt_view. apply SFcompare_Lt_trans. Qed.


(** [a <= b] and [b <= c] give [a <= c], written with [ge]. *)
Lemma ge_trans a b c : ge b a = true -> ge c b = true -> ge c a = true.
Proof.
  rewrite !ge_view. intros [H1|H1] [H2|H2].
  - left. eapply SFcompare_Lt_trans; eauto.
  - left. eapply SFcompare_Lt_Eq_trans; eauto.
  - left. eapply SFcompare_Eq_Lt_trans; eauto.
  - right. eapply SFcompare_Eq_trans; eauto.
Qed.

Lemma lt_ge a b : lt a b = true -> ge b a = true.
Proof. intros H. apply ge_view. left. now apply lt_view. Qed.

(** A NaN operand makes every comparison false and every difference NaN. *)
Lemma isNaN_view a : isNaN a = true <-> Prim2SF a = S754_nan.
Proof.
  unfold isNaN, is_nan. rewrite FloatAxioms.eqb_spec. unfold SFeqb.
  destruct (Prim2SF a) as [s|s| |s m e]; simpl; try (destruct s; simpl);
    try rewrite Z.compare_refl;
    change (PosDef.Pos.compare_cont Eq) with Pos.compare;
    try rewrite Pos.compare_refl; simpl; split; congruence.
Qed.


Lemma lt_NaN_r a b : isNaN b = true -> lt a b = false.
Proof.
  intros H%isNaN_view. unfold lt. rewrite FloatAxioms.ltb_spec, H. unfold SFltb.
  destruct (Prim2SF a); reflexivity.
Qed.


Lemma ge_NaN_r a b : isNaN b = true -> ge a b = false.
Proof.
  intros H%isNaN_view. unfold ge. rewrite FloatAxioms.leb_spec, H. reflexivity.
Qed.






(** A falsy number is not below zero's strict successors: [0 < a] fails. *)
Lemma falsy_not_pos a : truthy a = false -> lt 0 a = false.
Proof.
  unfold truthy. rewrite negb_false_iff, orb_true_iff. intros [H|H].
  - unfold eq in H. rewrite FloatAxioms.eqb_spec in H. unfold SFeqb in H.
    destruct (lt 0 a) eqn:E; [|reflexivity].
    apply lt_view in E.
    assert (Hz : Prim2SF 0 = S754_zero false) by reflexivity.
    rewrite Hz in *.
    destruct (Prim2SF a) as [s|s| |s m e]; simpl in *; try discriminate;
      destruct s; discriminate.
  - now apply lt_NaN_r.
Qed.

End Binary64.


(** ** [escapeHtml] *)

Lemma occurs_append c a b : occurs c (a +:+ b) = occurs c a || occurs c b.
Proof.
  induction a as [|x a IH]; simpl; [reflexivity|].
  rewrite IH. now rewrite orb_assoc.
Qed.

Lemma append_cons x (a b : string) : String x a +:+ b = String x (a +:+ b).
Proof. reflexivity. Qed.

Lemma append_assoc (a b c : string) : a +:+ (b +:+ c) = (a +:+ b) +:+ c.
Proof.
  induction a as [|x a IH]; [reflexivity|].
  rewrite !append_cons. now rewrite IH.
Qed.

Lemma replaceAll_append c rep a b :
  replaceAll c rep (a +:+ b) = replaceAll c rep a +:+ replaceAll c rep b.
Proof.
  induction a as [|x a IH]; [reflexivity|].
  rewrite append_cons. simpl.
  destruct (Ascii.eqb x c); rewrite IH; [apply append_assoc | reflexivity].
Qed.

Lemma replaceAll_removes c rep s :
  occurs c rep = false -> occurs c (replaceAll c rep s) = false.
Proof.
  intros Hrep. induction s as [|x s IH]; simpl; [reflexivity|].
  destruct (Ascii.eqb x c) eqn:E; simpl.
  - now rewrite occurs_append, Hrep, IH.
  - now rewrite E, IH.
Qed.

Lemma replaceAll_keeps_absent c c' rep s :
  occurs c' rep = false -> occurs c' s = false ->
  occurs c' (replaceAll c rep s) = false.
Proof.
  intros Hrep. induction s as [|x s IH]; simpl; [reflexivity|].
  intros [Hx Hs]%orb_false_iff.
  destruct (Ascii.eqb x c); simpl.
  - now rewrite occurs_append, Hrep, IH.
  - now rewrite Hx, IH.
Qed.

(** Replacing [&] first means that the ampersands of the entities written by
    the later passes are not encoded again: the three passes amount to one
    pass that encodes each character once. *)
Lemma three_passes_encode s :
  replaceAll ">" "&gt;" (replaceAll "<" "&lt;" (replaceAll "&" "&amp;" s)) = encode s.
Proof.
  induction s as [|a s IH]; simpl; [reflexivity|].
  unfold entityOf.
  destruct (Ascii.eqb a "&") eqn:E1.
  - rewrite !replaceAll_append, IH. reflexivity.
  - simpl. destruct (Ascii.eqb a "<") eqn:E2.
    + rewrite !replaceAll_append, IH. reflexivity.
    + simpl. destruct (Ascii.eqb a ">") eqn:E3.
      * now rewrite IH.
      * now rewrite IH.
Qed.

Section EscapeHtml.
Context `{rt : Runtime}.

(** X1.  Whatever value [escapeHtml] is given, a string or not, its result
    holds no [<] and no [>]. *)
Lemma escapeHtml_no_angle_brackets (v : value) :
  occurs "<" (escapeHtml v) = false /\ occurs ">" (escapeHtml v) = false.
Proof.
  assert (H : forall s,
    occurs "<" (replaceAll ">" "&gt;" (replaceAll "<" "&lt;" (replaceAll "&" "&amp;" s))) = false
    /\ occurs ">" (replaceAll ">" "&gt;" (replaceAll "<" "&lt;" (replaceAll "&" "&amp;" s))) = false).
  { intros s. split.
    - apply replaceAll_keeps_absent; [reflexivity|].
      now apply replaceAll_removes.
    - now apply replaceAll_removes. }
  destruct v; simpl; auto.
Qed.

Lemma escapeHtml_null_undefined : escapeHtml Null = "" /\ escapeHtml Undefined = "".
Proof. split; reflexivity. Qed.

(** In [processSQSOrder] the status goes into the text as it is. *)
Lemma orderMsg_status_verbatim (orderData : row) :
  exists front back,
    orderMsg orderData = front +:+ " <b>Order " +:+ ToString (get orderData "status") +:+ back.
Proof. unfold orderMsg. eexists _, _. reflexivity. Qed.

End EscapeHtml.

(** ** The milestone tracker *)

Lemma ascending_tail a ms : ascending (a :: ms) = true -> ascending ms = true.
Proof.
  destruct ms as [|b ms]; [reflexivity|].
  simpl. intros [_ H]%andb_true_iff. exact H.
Qed.

Lemma ascending_above_head a ms m :
  ascending (a :: ms) = true -> m ∈ ms -> JsNum.lt a m = true.
Proof.
  revert a. induction ms as [|b ms IH]; intros a Hasc Hm.
  - inversion Hm.
  - simpl in Hasc. apply andb_true_iff in Hasc as [Hab Hrest].
    apply elem_of_cons in Hm as [->|Hm]; [exact Hab|].
    eapply Binary64.lt_trans; [exact Hab|]. now apply IH.
Qed.

Lemma ascending_below_last ms hi m :
  ascending ms = true -> last ms = Some hi -> m ∈ ms ->
  m = hi \/ JsNum.lt m hi = true.
Proof.
  induction ms as [|a ms IH]; intros Hasc Hlast Hm; [inversion Hm|].
  destruct ms as [|b ms].
  - apply list_elem_of_singleton in Hm. simpl in Hlast. left. congruence.
  - rewrite last_cons_cons in Hlast.
    assert (Hhi : hi ∈ b :: ms) by now apply last_Some_elem_of.
    apply elem_of_cons in Hm as [->|Hm].
    + right. eapply ascending_above_head; eauto.
    + apply IH; auto. eapply ascending_tail; eauto.
Qed.

Lemma firstCrossing_Some oldValue newValue lastNotified ms t :
  firstCrossing oldValue newValue lastNotified ms = Some t ->
  t ∈ ms /\ JsNum.lt oldValue t = true /\ JsNum.ge newValue t = true
  /\ JsNum.gt t lastNotified = true.
Proof.
  induction ms as [|m ms IH]; simpl; [discriminate|].
  destruct (JsNum.lt oldValue m && JsNum.ge newValue m && JsNum.gt m lastNotified) eqn:E.
  - intros [= <-]. apply andb_true_iff in E as [[H1 H2]%andb_true_iff H3].
    split; [left|]; auto.
  - intros H. destruct (IH H) as (Hin & ?). split; [now right|auto].
Qed.

(** When every entry lies in [(oldValue, newValue]], the loop stops at the
    first entry above the recorded mark. *)
Lemma firstCrossing_all_in_range oldValue newValue lastNotified ms :
  (forall m, m ∈ ms -> JsNum.lt oldValue m = true /\ JsNum.ge newValue m = true) ->
  firstCrossing oldValue newValue lastNotified ms
  = List.find (fun m => JsNum.gt m lastNotified) ms.
Proof.
  induction ms as [|m ms IH]; intros Hall; [reflexivity|].
  simpl. destruct (Hall m) as [-> ->]; [left|]. simpl.
  destruct (JsNum.gt m lastNotified); [reflexivity|].
  apply IH. intros m' Hm'. apply Hall. now right.
Qed.

Lemma find_first_above lastNotified ms :
  ascending ms = true ->
  match List.find (fun m => JsNum.gt m lastNotified) ms with
  | Some m =>
      m ∈ ms /\ JsNum.gt m lastNotified = true
      /\ forall m', m' ∈ ms -> JsNum.gt m' lastNotified = true ->
           m' = m \/ JsNum.lt m m' = true
  | None => forall m', m' ∈ ms -> JsNum.gt m' lastNotified = false
  end.
Proof.
  induction ms as [|a ms IH]; intros Hasc; simpl.
  - intros m' Hm'. inversion Hm'.
  - destruct (JsNum.gt a lastNotified) eqn:Ea.
    + split; [left|]. split; [exact Ea|].
      intros m' [->|Hm']%elem_of_cons _; [now left|].
      right. eapply ascending_above_head; eauto.
    + specialize (IH (ascending_tail _ _ Hasc)).
      destruct (List.find _ ms) as [m|].
      * destruct IH as (Hin & Hgt & Hmin). split; [now right|]. split; [exact Hgt|].
        intros m' [->|Hm']%elem_of_cons Hm'gt; [congruence|]. now apply Hmin.
      * intros m' [->|Hm']%elem_of_cons; [exact Ea|]. now apply IH.
Qed.

Lemma lastNotifiedOf_insert key t (cache : gmap string float) :
  lastNotifiedOf key (<[key := t]> cache) = if JsNum.truthy t then t else 0%float.
Proof. unfold lastNotifiedOf. now rewrite lookup_insert_eq. Qed.

(** What is read back after [t] was stored compares with other numbers as
    [t] does, provided [t] was above some number. *)
Lemma readback_above a t :
  JsNum.lt a t = true -> JsNum.lt a (if JsNum.truthy t then t else 0%float) = true.
Proof.
  intros Hat. destruct (JsNum.truthy t) eqn:Et; [exact Hat|].
  unfold JsNum.truthy in Et. rewrite negb_false_iff, orb_true_iff in Et.
  destruct Et as [Hz|Hn]; [|now rewrite Binary64.lt_NaN_r in Hat].
  apply Binary64.lt_view. apply Binary64.lt_view in Hat.
  unfold JsNum.eq in Hz. rewrite FloatAxioms.eqb_spec in Hz. unfold SFeqb in Hz.
  destruct (SFcompare (Prim2SF t) (Prim2SF 0)) as [[]|] eqn:E; try discriminate.
  eapply Binary64.SFcompare_Lt_Eq_trans; eauto.
Qed.

Lemma readback_below t b :
  JsNum.lt (if JsNum.truthy t then t else 0%float) b = true ->
  JsNum.truthy t = true \/ JsNum.eq t 0 = true ->
  JsNum.lt t b = true.
Proof.
  intros Hb Ht. destruct (JsNum.truthy t) eqn:Et; [exact Hb|].
  destruct Ht as [|Hz]; [discriminate|].
  apply Binary64.lt_view. apply Binary64.lt_view in Hb.
  unfold JsNum.eq in Hz. rewrite FloatAxioms.eqb_spec in Hz. unfold SFeqb in Hz.
  destruct (SFcompare (Prim2SF t) (Prim2SF 0)) as [[]|] eqn:E; try discriminate.
  eapply Binary64.SFcompare_Eq_Lt_trans; eauto.
Qed.

Section Milestones.
Context `{rt : Runtime}.

Lemma checkAndNotifyMilestone_none userId milestoneType oldValue newValue ms gen cache :
  firstCrossing oldValue newValue
    (lastNotifiedOf (cacheKeyOf userId milestoneType) cache) ms = None ->
  checkAndNotifyMilestone userId milestoneType oldValue newValue ms gen cache = (None, cache).
Proof. unfold checkAndNotifyMilestone. now intros ->. Qed.

(** C5.  One update takes a metric from below the lowest threshold of an
    ascending ladder to the highest threshold or beyond, and the mark
    recorded for the pair (zero when there is none) is below the highest
    threshold.  Then [checkAndNotifyMilestone] returns one message; it is
    the message for a threshold [m] of the ladder that is above the
    recorded mark and below every other such threshold, and [m] is stored
    as the new mark.  When the recorded mark is below the lowest threshold,
    [m] is that lowest threshold. *)
Theorem jump_over_ladder_notifies_lowest_new
    userId milestoneType oldValue newValue ms gen cache lo hi :
  ascending ms = true ->
  head ms = Some lo ->
  last ms = Some hi ->
  JsNum.lt oldValue lo = true ->
  JsNum.ge newValue hi = true ->
  JsNum.gt hi (lastNotifiedOf (cacheKeyOf userId milestoneType) cache) = true ->
  exists m,
    m ∈ ms
    /\ checkAndNotifyMilestone userId milestoneType oldValue newValue ms gen cache
       = (Some (gen m newValue), <[cacheKeyOf userId milestoneType := m]> cache)
    /\ JsNum.gt m (lastNotifiedOf (cacheKeyOf userId milestoneType) cache) = true
    /\ (forall m', m' ∈ ms ->
          JsNum.gt m' (lastNotifiedOf (cacheKeyOf userId milestoneType) cache) = true ->
          m' = m \/ JsNum.lt m m' = true)
    /\ (JsNum.gt lo (lastNotifiedOf (cacheKeyOf userId milestoneType) cache) = true ->
        m = lo).
Proof.
  intros Hasc Hhead Hlast Hold Hnew Hroom.
  set (lastNotified := lastNotifiedOf (cacheKeyOf userId milestoneType) cache) in *.
  assert (Hrange : forall m, m ∈ ms ->
            JsNum.lt oldValue m = true /\ JsNum.ge newValue m = true).
  { intros m Hm. split.
    - destruct ms as [|a ms']; [inversion Hm|]. simpl in Hhead. injection Hhead as ->.
      apply elem_of_cons in Hm as [->|Hm]; [exact Hold|].
      eapply Binary64.lt_trans; [exact Hold|]. eapply ascending_above_head; eauto.
    - destruct (ascending_below_last ms hi m Hasc Hlast Hm) as [->|Hlt]; [exact Hnew|].
      eapply Binary64.ge_trans; [|exact Hnew]. now apply Binary64.lt_ge. }
  pose proof (firstCrossing_all_in_range oldValue newValue lastNotified ms Hrange) as Hfc.
  pose proof (find_first_above lastNotified ms Hasc) as Hfind.
  destruct (List.find (fun m => JsNum.gt m lastNotified) ms) as [m|] eqn:Ef.
  - destruct Hfind as (Hin & Hgt & Hmin).
    exists m. split; [exact Hin|]. split.
    + unfold checkAndNotifyMilestone. fold lastNotified. now rewrite Hfc.
    + split; [exact Hgt|]. split; [exact Hmin|].
      intros Hlo. destruct ms as [|a ms']; [inversion Hin|].
      simpl in Hhead. injection Hhead as ->. simpl in Ef.
      rewrite Hlo in Ef. congruence.
  - assert (Hhi : hi ∈ ms) by now apply last_Some_elem_of.
    rewrite (Hfind hi Hhi) in Hroom. discriminate.
Qed.

(** C6, as amended.  Whatever the arguments, [checkAndNotifyMilestone]
    either returns nothing and leaves the cache as it was, or returns the
    message of a threshold [t] of the ladder, and then: [t] is already
    stored under the pair's key; [t] is strictly above the mark recorded
    before the call, so the mark read back afterwards is strictly above the
    former one; and the same call made again at once does not return [t]
    again: it returns nothing, or the message of a threshold strictly above
    [t]. *)
Theorem milestone_recorded_and_increasing
    userId milestoneType oldValue newValue ms gen cache :
  let key := cacheKeyOf userId milestoneType in
  let '(result, cache') :=
    checkAndNotifyMilestone userId milestoneType oldValue newValue ms gen cache in
  (result = None /\ cache' = cache)
  \/ exists t,
       t ∈ ms
       /\ result = Some (gen t newValue)
       /\ cache' !! key = Some t
       /\ JsNum.gt t (lastNotifiedOf key cache) = true
       /\ JsNum.lt (lastNotifiedOf key cache) (lastNotifiedOf key cache') = true
       /\ match checkAndNotifyMilestone userId milestoneType oldValue newValue ms gen cache'
          with
          | (None, cache'') => cache'' = cache'
          | (Some again, _) =>
              exists t', t' ∈ ms /\ again = gen t' newValue /\ JsNum.lt t t' = true
          end.
Proof.
  intros key. unfold checkAndNotifyMilestone. fold key.
  destruct (firstCrossing oldValue newValue (lastNotifiedOf key cache) ms) as [t|] eqn:E;
    [right|left; auto].
  apply firstCrossing_Some in E as (Hin & Hold & Hnew & Hgt).
  exists t. split; [exact Hin|]. split; [reflexivity|].
  split; [apply lookup_insert_eq|]. split; [exact Hgt|].
  rewrite lastNotifiedOf_insert. split; [now apply readback_above|].
  destruct (firstCrossing oldValue newValue (if JsNum.truthy t then t else 0%float) ms)
    as [t'|] eqn:E'; [|reflexivity].
  apply firstCrossing_Some in E' as (Hin' & _ & _ & Hgt').
  exists t'. split; [exact Hin'|]. split; [reflexivity|].
  apply readback_below; [exact Hgt'|].
  unfold JsNum.truthy. destruct (JsNum.eq t 0) eqn:Ez; [now right|left].
  simpl. destruct (JsNum.isNaN t) eqn:En; [|reflexivity].
  unfold JsNum.gt in Hgt. now rewrite Binary64.lt_NaN_r in Hgt.
Qed.

End Milestones.

Section MilestoneExamples.
#[local] Existing Instance example_runtime.

(** C5 at a concrete input: volume goes from 900 to 150000 with nothing
  recorded; the one message is for 1000. *)
Lemma jump_over_ladder_witness :
exists m,
  m ∈ volumeMilestones
  /\ checkAndNotifyMilestone (Str "u1") "volume" 900 150000
       volumeMilestones (volumeMsgOf (Str "alice") (Str "u1")) ∅
     = (Some (volumeMsgOf (Str "alice") (Str "u1") m 150000),
        <[cacheKeyOf (Str "u1") "volume" := m]> ∅)
  /\ JsNum.gt m (lastNotifiedOf (cacheKeyOf (Str "u1") "volume") ∅) = true
  /\ (forall m', m' ∈ volumeMilestones ->
        JsNum.gt m' (lastNotifiedOf (cacheKeyOf (Str "u1") "volume") ∅) = true ->
        m' = m \/ JsNum.lt m m' = true)
  /\ (JsNum.gt 1000 (lastNotifiedOf (cacheKeyOf (Str "u1") "volume") ∅) = true ->
      m = 1000%float).
Proof.
apply (jump_over_ladder_notifies_lowest_new (rt := example_runtime)
         (Str "u1") "volume" 900 150000 volumeMilestones
         (volumeMsgOf (Str "alice") (Str "u1")) ∅ 1000 100000);
  vm_compute; reflexivity.
Defined.

(** C6 as first stated fails: the update 900 -> 6000, made twice in a row,
  is answered with the message for 1000 and then with the message for
  5000, not with nothing. *)
Lemma repeated_update_returns_next_threshold :
let gen := volumeMsgOf (Str "alice") (Str "u1") in
let first :=
  checkAndNotifyMilestone (Str "u1") "volume" 900 6000
    volumeMilestones gen ∅ in
let second :=
  checkAndNotifyMilestone (Str "u1") "volume" 900 6000
    volumeMilestones gen first.2 in
first.1 = Some (gen 1000 6000)%float
/\ second.1 = Some (gen 5000 6000)%float
/\ second.1 <> None.
Proof. vm_compute. repeat split; discriminate. Qed.

End MilestoneExamples.

(** ** The duplicate store and the sweep *)

Lemma gtb_false (a b : Z) : (a >? b)%Z = false <-> (a <= b)%Z.
Proof. rewrite Z.gtb_ltb. apply Z.ltb_ge. Qed.

Lemma sweep_processedEvents_lookup now s k ts :
  processedEvents (sweep now s) !! k = Some ts <->
  processedEvents s !! k = Some ts /\ (now - ts >? EVENT_CACHE_TTL)%Z = false.
Proof. unfold sweep. simpl. apply map_lookup_filter_Some. Qed.

Lemma sweep_keeps_absent now s k :
  processedEvents s !! k = None -> processedEvents (sweep now s) !! k = None.
Proof.
  intros H. unfold sweep. simpl. apply map_lookup_filter_None. left. exact H.
Qed.

Lemma sweep_drops_old now s k ts :
  processedEvents s !! k = Some ts -> (now - ts > EVENT_CACHE_TTL)%Z ->
  processedEvents (sweep now s) !! k = None.
Proof.
  intros H Hold. unfold sweep. simpl. apply map_lookup_filter_None. right.
  intros ts' H'. simpl. rewrite H in H'. injection H' as <-.
  intros Hf%gtb_false. lia.
Qed.

Lemma isDuplicateEvent_seen k now s ts :
  processedEvents s !! k = Some ts -> isDuplicateEvent k now s = (true, s).
Proof. unfold isDuplicateEvent. now intros ->. Qed.

Lemma isDuplicateEvent_new k now s :
  processedEvents s !! k = None ->
  isDuplicateEvent k now s
  = (false, {| processedEvents := <[k := now]> (processedEvents s);
               milestoneCache := milestoneCache s |}).
Proof. unfold isDuplicateEvent. now intros ->. Qed.

Section Dedup.
Context `{rt : Runtime}.

(** No handler body touches [processedEvents]. *)
Lemma body_keeps_processedEvents t event body p s :
  handlerBody t event = Some body ->
  processedEvents (store_after (body p s)) = processedEvents s.
Proof.
  destruct t, event; simpl; intros [= <-].
  - unfold usersInsertBody. destruct (new p); reflexivity.
  - unfold usersUpdateBody. destruct (new p); [|reflexivity].
    destruct (negb _); [reflexivity|].
    destruct (usersUpdateSignals _ _ _). reflexivity.
  - unfold autoTradeInsertBody. destruct (new p); reflexivity.
  - unfold autoTradeUpdateBody.
    destruct (negb _); [|reflexivity].
    repeat (destruct (String.eqb _ _); [destruct (new p); reflexivity|]). reflexivity.
  - unfold copyWalletsInsertBody. destruct (new p); reflexivity.
  - unfold copyWalletsUpdateBody.
    destruct (_ <=? _)%nat; [reflexivity|]. destruct (new p); [|reflexivity].
    destruct (strict_neq _ _); [reflexivity|]. destruct (JsNum.gt _ _); reflexivity.
  - unfold monthlyInsertBody. destruct (new p); reflexivity.
Qed.

(** A delivery whose id is in the store sends nothing and changes nothing. *)
Lemma onChange_seen t event p now s ts :
  handlerBody t event <> None ->
  processedEvents s !! generateEventId t event p now = Some ts ->
  onChange t event p now s = done s [].
Proof.
  intros Hb Hk. unfold onChange. destruct (handlerBody t event); [|congruence].
  unfold deduplicated. now rewrite (isDuplicateEvent_seen _ _ _ _ Hk).
Qed.

(** A delivery whose id is not in the store records it and runs the body. *)
Lemma onChange_new t event body p now s :
  handlerBody t event = Some body ->
  processedEvents s !! generateEventId t event p now = None ->
  onChange t event p now s
  = body p {| processedEvents := <[generateEventId t event p now := now]> (processedEvents s);
              milestoneCache := milestoneCache s |}.
Proof.
  intros Hb Hk. unfold onChange. rewrite Hb.
  unfold deduplicated. now rewrite (isDuplicateEvent_new _ _ _ Hk).
Qed.

(** An entry stays where it is through any input that is not a sweep run
    more than [EVENT_CACHE_TTL] after the entry's timestamp. *)
Lemma step_keeps_entry i s k ts :
  processedEvents s !! k = Some ts ->
  (clock i - ts <= EVENT_CACHE_TTL)%Z ->
  processedEvents (store_after (step i s)) !! k = Some ts.
Proof.
  intros Hk Hclock. destruct i as [now|t event p now]; simpl in *.
  - apply sweep_processedEvents_lookup. split; [exact Hk|].
    apply gtb_false. lia.
  - unfold onChange. destruct (handlerBody t event) as [body|] eqn:Hb; [|exact Hk].
    unfold deduplicated, isDuplicateEvent.
    destruct (processedEvents s !! generateEventId t event p now) eqn:E; [exact Hk|].
    rewrite (body_keeps_processedEvents _ _ _ _ _ Hb). simpl.
    rewrite lookup_insert_ne; [exact Hk|congruence].
Qed.

(** An id stays out of the store through any input that does not carry it. *)
Lemma step_keeps_absent i s k :
  processedEvents s !! k = None ->
  keyOf i <> Some k ->
  processedEvents (store_after (step i s)) !! k = None.
Proof.
  intros Hk Hkey. destruct i as [now|t event p now]; simpl in *.
  - now apply sweep_keeps_absent.
  - unfold onChange. destruct (handlerBody t event) as [body|] eqn:Hb; [|exact Hk].
    unfold deduplicated, isDuplicateEvent.
    destruct (processedEvents s !! generateEventId t event p now) eqn:E; [exact Hk|].
    rewrite (body_keeps_processedEvents _ _ _ _ _ Hb). simpl.
    rewrite lookup_insert_ne; [exact Hk|congruence].
Qed.

(** Between sweeps that could drop it, an entry is either still there with
    its timestamp or gone. *)
Lemma step_entry_or_absent i s k ts :
  processedEvents s !! k = Some ts \/ processedEvents s !! k = None ->
  keyOf i <> Some k ->
  processedEvents (store_after (step i s)) !! k = Some ts
  \/ processedEvents (store_after (step i s)) !! k = None.
Proof.
  intros [Hk|Hk] Hkey; [|right; now apply step_keeps_absent].
  destruct i as [now|t event p now]; simpl in *.
  - destruct (now - ts >? EVENT_CACHE_TTL)%Z eqn:E.
    + right. eapply sweep_drops_old; eauto.
      rewrite Z.gtb_ltb in E. apply Z.ltb_lt in E. lia.
    + left. apply sweep_processedEvents_lookup. auto.
  - left. unfold onChange. destruct (handlerBody t event) as [body|] eqn:Hb; [|exact Hk].
    unfold deduplicated, isDuplicateEvent.
    destruct (processedEvents s !! generateEventId t event p now) eqn:E; [exact Hk|].
    rewrite (body_keeps_processedEvents _ _ _ _ _ Hb). simpl.
    rewrite lookup_insert_ne; [exact Hk|congruence].
Qed.

Lemma run_cons i tr s : run (i :: tr) s = run tr (store_after (step i s)).
Proof. reflexivity. Qed.

Lemma run_app tr1 tr2 s : run (tr1 ++ tr2) s = run tr2 (run tr1 s).
Proof. unfold run. apply foldl_app. Qed.

Lemma run_keeps_entry tr s k ts :
  processedEvents s !! k = Some ts ->
  Forall (fun i => (clock i - ts <= EVENT_CACHE_TTL)%Z) tr ->
  processedEvents (run tr s) !! k = Some ts.
Proof.
  revert s. induction tr as [|i tr IH]; intros s Hk Hall; [exact Hk|].
  apply Forall_cons in Hall as [Hi Hall]. rewrite run_cons.
  apply IH; [|exact Hall]. now apply step_keeps_entry.
Qed.

Lemma run_keeps_absent tr s k :
  processedEvents s !! k = None ->
  Forall (fun i => keyOf i <> Some k) tr ->
  processedEvents (run tr s) !! k = None.
Proof.
  revert s. induction tr as [|i tr IH]; intros s Hk Hall; [exact Hk|].
  apply Forall_cons in Hall as [Hi Hall]. rewrite run_cons.
  apply IH; [|exact Hall]. now apply step_keeps_absent.
Qed.

Lemma run_entry_or_absent tr s k ts :
  processedEvents s !! k = Some ts \/ processedEvents s !! k = None ->
  Forall (fun i => keyOf i <> Some k) tr ->
  processedEvents (run tr s) !! k = Some ts \/ processedEvents (run tr s) !! k = None.
Proof.
  revert s. induction tr as [|i tr IH]; intros s Hk Hall; [exact Hk|].
  apply Forall_cons in Hall as [Hi Hall]. rewrite run_cons.
  apply IH; [|exact Hall]. now apply step_entry_or_absent.
Qed.

End Dedup.

Section Redelivery.
Context `{rt : Runtime}.

(** C4.  An event is delivered at [now1] and its id [k] is then seen for the
    first time.  Whatever reaches the process afterwards, if an event with
    the same id is delivered at [now2], no later than [EVENT_CACHE_TTL]
    after [now1], that delivery sends no notification, settles normally and
    leaves both caches as they were. *)
Theorem redelivery_within_window_suppressed
    t1 event1 p1 now1 t2 event2 p2 now2 mid s0 k :
  keyOf (Change t1 event1 p1 now1) = Some k ->
  keyOf (Change t2 event2 p2 now2) = Some k ->
  processedEvents s0 !! k = None ->
  Forall (fun i => (clock i <= now2)%Z) mid ->
  (now2 - now1 <= EVENT_CACHE_TTL)%Z ->
  let s := run (Change t1 event1 p1 now1 :: mid) s0 in
  step (Change t2 event2 p2 now2) s = done s [].
Proof.
  intros Hk1 Hk2 Hnew Hmid Hwin s. simpl in Hk1, Hk2.
  destruct (handlerBody t1 event1) as [body1|] eqn:Hb1; [|discriminate].
  destruct (handlerBody t2 event2) as [body2|] eqn:Hb2; [|discriminate].
  injection Hk1 as Hk1. injection Hk2 as Hk2.
  assert (Hs : processedEvents s !! k = Some now1).
  { subst s. rewrite run_cons. apply run_keeps_entry.
    - simpl. rewrite (onChange_new _ _ _ _ _ _ Hb1) by now rewrite Hk1.
      rewrite (body_keeps_processedEvents _ _ _ _ _ Hb1). simpl.
      rewrite Hk1. apply lookup_insert_eq.
    - eapply Forall_impl; [exact Hmid|]. simpl. intros i Hi. lia. }
  simpl. apply onChange_seen with (ts := now1); [congruence|]. now rewrite Hk2.
Qed.

(** C3, as amended.  An event is delivered at [now1] and its id [k] is then
    seen for the first time; later the sweep runs at a clock reading more
    than [EVENT_CACHE_TTL] after [now1]; no other delivery in between
    carries [k].  Then a delivery with id [k] is treated as new: the id is
    recorded again and the handler body runs on the event. *)
Theorem redelivery_after_sweep_is_new
    t1 event1 p1 now1 t2 event2 body2 p2 now2 nowT mid1 mid2 s0 k :
  keyOf (Change t1 event1 p1 now1) = Some k ->
  handlerBody t2 event2 = Some body2 ->
  generateEventId t2 event2 p2 now2 = k ->
  processedEvents s0 !! k = None ->
  Forall (fun i => keyOf i <> Some k) (mid1 ++ mid2) ->
  (nowT - now1 > EVENT_CACHE_TTL)%Z ->
  let s := run (Change t1 event1 p1 now1 :: mid1 ++ Tick nowT :: mid2) s0 in
  processedEvents s !! k = None
  /\ step (Change t2 event2 p2 now2) s
     = body2 p2 {| processedEvents := <[k := now2]> (processedEvents s);
                   milestoneCache := milestoneCache s |}.
Proof.
  intros Hk1 Hb2 Hk2 Hnew Hmid Hold s. simpl in Hk1.
  destruct (handlerBody t1 event1) as [body1|] eqn:Hb1; [|discriminate].
  injection Hk1 as Hk1.
  apply Forall_app in Hmid as [Hmid1 Hmid2].
  assert (Hs : processedEvents s !! k = None).
  { subst s. rewrite run_cons, run_app, run_cons.
    apply run_keeps_absent; [|exact Hmid2].
    set (s1 := store_after (step (Change t1 event1 p1 now1) s0)).
    assert (H1 : processedEvents s1 !! k = Some now1).
    { subst s1. simpl. rewrite (onChange_new _ _ _ _ _ _ Hb1) by now rewrite Hk1.
      rewrite (body_keeps_processedEvents _ _ _ _ _ Hb1). simpl.
      rewrite Hk1. apply lookup_insert_eq. }
    destruct (run_entry_or_absent mid1 s1 k now1 (or_introl H1) Hmid1) as [H|H].
    - simpl. eapply sweep_drops_old; eauto.
    - simpl. now apply sweep_keeps_absent. }
  split; [exact Hs|].
  simpl. rewrite (onChange_new _ _ _ _ _ _ Hb2) by now rewrite Hk2.
  now rewrite Hk2.
Qed.

(** With the sweep timer firing every minute, a sweep that drops the entry
    has run once the two deliveries are at least six minutes apart. *)
Lemma sweep_within_a_minute_of_expiry now1 now2 mid :
  ticksEvery 60000 now1 now2 mid ->
  (now2 - now1 >= EVENT_CACHE_TTL + 60000)%Z ->
  exists mid1 nowT mid2,
    mid = (mid1 ++ Tick nowT :: mid2)%list /\ (nowT - now1 > EVENT_CACHE_TTL)%Z.
Proof.
  intros Hticks Hfar. unfold EVENT_CACHE_TTL in *.
  destruct (Hticks (now1 + 5 * 60 * 1000)%Z) as (nowT & Hin & Hrange); [lia|lia|].
  apply list_elem_of_split in Hin as (mid1 & mid2 & ->).
  exists mid1, nowT, mid2. split; [reflexivity|lia].
Qed.

End Redelivery.

(** The sweep of [milestoneCache] compares the clock with the stored number,
    which is the threshold itself: whether an entry goes depends on the
    threshold and on the clock, not on when the entry was written. *)
Lemma sweep_milestoneCache_lookup now s k v :
  milestoneCache (sweep now s) !! k = Some v <->
  milestoneCache s !! k = Some v
  /\ JsNum.gt (JsNum.sub (JsNum.ofTime now) v) 3600000 = false.
Proof. unfold sweep. simpl. apply map_lookup_filter_Some. Qed.

Section StoreExamples.
#[local] Existing Instance example_runtime.

(** C1 on the code.  Volume goes from 900 to 1200 at [T0]: the milestone
    1000 is announced and stored.  The sweep that runs one second later
    deletes the entry, because it reads the stored threshold 1000 as a
    timestamp.  After a dip to 950 the rise to 1100 announces 1000 a second
    time, which the entry, had it been kept for the hour, would have
    prevented. *)
Lemma milestone_entry_swept_at_next_tick :
  let rise := Change Users UPDATE (volumeUpdate "t1" 900 1200) T0 in
  let again := Change Users UPDATE (volumeUpdate "t3" 950 1100) (T0 + 2000) in
  let s1 := store_after (step rise empty_store) in
  let s2 := store_after (step (Tick (T0 + 1000)) s1) in
  map label (sent (step rise empty_store)) = ["Users UPDATE (volume milestone):"]
  /\ milestoneCache s1 !! "u1:volume" = Some 1000%float
  /\ milestoneCache s2 !! "u1:volume" = None
  /\ map label (sent (step again s2)) = ["Users UPDATE (volume milestone):"]
  /\ map label (sent (step again s1)) = [].
Proof. vm_compute. repeat split; reflexivity. Qed.

(** Every threshold of both ladders is deleted by a sweep at [T0]. *)
Lemma every_threshold_swept :
  Forall (fun m =>
            milestoneCache (sweep T0 {| processedEvents := ∅;
                                        milestoneCache := {[ "u1:volume" := m ]} |})
            !! "u1:volume" = None)
         (volumeMilestones ++ txnMilestones).
Proof. unfold volumeMilestones, txnMilestones. simpl. repeat constructor. Qed.

(** C4 at a concrete input: the signup event is delivered at [T0] and again
    200 seconds later, with three sweeps in between. *)
Lemma redelivery_within_window_witness :
  let mid := [Tick (T0 + 60000); Tick (T0 + 120000); Tick (T0 + 180000)] in
  let s := run (Change Users INSERT signup T0 :: mid) empty_store in
  step (Change Users INSERT signup (T0 + 200000)) s = done s [].
Proof.
  apply (redelivery_within_window_suppressed (rt := example_runtime)
           Users INSERT signup T0 Users INSERT signup (T0 + 200000)
           [Tick (T0 + 60000); Tick (T0 + 120000); Tick (T0 + 180000)] empty_store
           "Users:INSERT:u1:2024-01-01T00:00:00Z:").
  - vm_compute. reflexivity.
  - vm_compute. reflexivity.
  - vm_compute. reflexivity.
  - repeat constructor; vm_compute; discriminate.
  - vm_compute. discriminate.
Defined.

(** C3 as first stated fails: the signup event is delivered 30 seconds after
    [T0] and again 301 seconds later, more than the five-minute window; the
    sweeps of minutes one to five have all found the entry at most 270
    seconds old, and the second delivery is dropped as a duplicate. *)
Lemma redelivery_after_window_still_suppressed :
  let first := Change Users INSERT signup (T0 + 30000) in
  let second := Change Users INSERT signup (T0 + 331000) in
  keyOf first = keyOf second
  /\ keyOf first <> None
  /\ ((T0 + 331000) - (T0 + 30000) > EVENT_CACHE_TTL)%Z
  /\ map label (sent (step first empty_store)) = ["Users INSERT:"]
  /\ sent (step second (run (first :: minuteTicks) empty_store)) = [].
Proof. vm_compute. repeat split; try reflexivity; discriminate. Qed.

(** C3 as amended, at a concrete input: the sweep of minute six finds the
    entry 330 seconds old and drops it; the delivery at 400 seconds is new. *)
Lemma redelivery_after_sweep_witness :
  let s := run (Change Users INSERT signup (T0 + 30000)
                :: minuteTicks ++ Tick (T0 + 360000) :: []) empty_store in
  processedEvents s !! "Users:INSERT:u1:2024-01-01T00:00:00Z:" = None
  /\ step (Change Users INSERT signup (T0 + 400000)) s
     = usersInsertBody signup
         {| processedEvents :=
              <["Users:INSERT:u1:2024-01-01T00:00:00Z:" := (T0 + 400000)%Z]> (processedEvents s);
            milestoneCache := milestoneCache s |}.
Proof.
  apply (redelivery_after_sweep_is_new (rt := example_runtime)
           Users INSERT signup (T0 + 30000) Users INSERT usersInsertBody signup (T0 + 400000)
           (T0 + 360000) minuteTicks [] empty_store
           "Users:INSERT:u1:2024-01-01T00:00:00Z:").
  - vm_compute. reflexivity.
  - reflexivity.
  - vm_compute. reflexivity.
  - vm_compute. reflexivity.
  - repeat constructor; vm_compute; discriminate.
  - vm_compute. reflexivity.
Defined.

End StoreExamples.

(** ** The event classifier *)

Lemma emitted_app lbl ns1 ns2 :
  emitted lbl (ns1 ++ ns2) = emitted lbl ns1 || emitted lbl ns2.
Proof. apply existsb_app. Qed.

Lemma emitted_other lbl lbl' ns :
  Forall (fun n => label n = lbl') ns -> lbl' <> lbl -> emitted lbl ns = false.
Proof.
  intros Hall Hne. induction Hall as [|n ns Hn _ IH]; [reflexivity|].
  simpl. rewrite IH, Hn. rewrite orb_false_r. now apply String.eqb_neq.
Qed.


Section Labels.
Context `{rt : Runtime}.

Lemma sendIfAny_labelled lbl msg : Forall (fun n => label n = lbl) (sendIfAny lbl msg).
Proof.
  unfold sendIfAny. destruct msg as [m|]; [|constructor].
  destruct (negb _); repeat constructor.
Qed.

Lemma depositSignal_labelled userNew userOld :
  Forall (fun n => label n = "Users UPDATE (deposit):") (depositSignal userNew userOld).
Proof.
  unfold depositSignal. destruct (_ && _); [|constructor].
  destruct (JsNum.gt _ _); repeat constructor.
Qed.

Lemma pnlSignal_labelled userNew userOld :
  Forall (fun n => label n = "Users UPDATE (PnL change):") (pnlSignal userNew userOld).
Proof. unfold pnlSignal. destruct (JsNum.ge _ _); repeat constructor. Qed.

Lemma volumeSignal_labelled userNew userOld cache :
  Forall (fun n => label n = "Users UPDATE (volume milestone):")
         (volumeSignal userNew userOld cache).1.
Proof.
  unfold volumeSignal. destruct (checkAndNotifyMilestone _ _ _ _ _ _ _).
  apply sendIfAny_labelled.
Qed.

Lemma txnSignal_labelled userNew userOld cache :
  Forall (fun n => label n = "Users UPDATE (txn milestone):")
         (txnSignal userNew userOld cache).1.
Proof.
  unfold txnSignal. destruct (checkAndNotifyMilestone _ _ _ _ _ _ _).
  apply sendIfAny_labelled.
Qed.

Lemma copytradingSignal_labelled userNew userOld :
  Forall (fun n => label n = "Users UPDATE (copytrading):")
         (copytradingSignal userNew userOld).
Proof.
  unfold copytradingSignal. destruct (userOld !! _); [|constructor].
  destruct (xorb _ _); repeat constructor.
Qed.

Lemma feesSignal_labelled userNew userOld :
  Forall (fun n => label n = "Users UPDATE (high fees):") (feesSignal userNew userOld).
Proof. unfold feesSignal. destruct (JsNum.ge _ _); repeat constructor. Qed.

End Labels.

(** A block says nothing under the name of another block. *)
Ltac other_blocks_silent userNew userOld cache :=
  rewrite ?(emitted_other _ _ _ (depositSignal_labelled userNew userOld)) by discriminate;
  rewrite ?(emitted_other _ _ _ (pnlSignal_labelled userNew userOld)) by discriminate;
  rewrite ?(emitted_other _ _ _ (volumeSignal_labelled userNew userOld cache)) by discriminate;
  rewrite ?(emitted_other _ _ _ (txnSignal_labelled userNew userOld _)) by discriminate;
  rewrite ?(emitted_other _ _ _ (copytradingSignal_labelled userNew userOld)) by discriminate;
  rewrite ?(emitted_other _ _ _ (feesSignal_labelled userNew userOld)) by discriminate.

Section Classifier.
Context `{rt : Runtime}.

(** The notifications of a Users UPDATE are those of its six blocks. *)
Lemma emitted_usersUpdateSignals lbl userNew userOld cache :
  emitted lbl (usersUpdateSignals userNew userOld cache).2
  = emitted lbl (depositSignal userNew userOld)
    || emitted lbl (pnlSignal userNew userOld)
    || emitted lbl (volumeSignal userNew userOld cache).1
    || emitted lbl (txnSignal userNew userOld (volumeSignal userNew userOld cache).2).1
    || emitted lbl (copytradingSignal userNew userOld)
    || emitted lbl (feesSignal userNew userOld).
Proof.
  unfold usersUpdateSignals.
  destruct (volumeSignal userNew userOld cache) as [volume cache1]. simpl.
  destruct (txnSignal userNew userOld cache1) as [txns cache2]. simpl.
  rewrite !emitted_app. now rewrite !orb_assoc.
Qed.



(** What a Users UPDATE that is new and carries old data sends, when both
    images hold primitives. *)
Lemma usersUpdate_sent p now s userNew :
  new p = Some userNew ->
  primitiveRow userNew = true ->
  primitiveRow (oldOrEmpty p) = true ->
  processedEvents s !! generateEventId Users UPDATE p now = None ->
  (1 < size (oldOrEmpty p))%nat ->
  sent (onChange Users UPDATE p now s)
  = (usersUpdateSignals userNew (oldOrEmpty p) (milestoneCache s)).2.
Proof.
  intros Hnew _ _ Hk Hold.
  rewrite (onChange_new Users UPDATE usersUpdateBody) by (reflexivity || exact Hk).
  unfold usersUpdateBody. rewrite Hnew.
  apply Nat.ltb_lt in Hold. rewrite Hold. simpl.
  destruct (usersUpdateSignals _ _ _). reflexivity.
Qed.


End Classifier.

Section Coercion.
Context `{rt : Runtime}.


(** A number that is neither zero nor NaN is read as it is. *)
Lemma numericField_number r field x :
  get r field = Num x -> JsNum.truthy x = true -> numericField r field = x.
Proof. unfold numericField, or_else. intros -> H. simpl. now rewrite H. Qed.









(** The old-data guard of the Users and Copy_Wallets UPDATE handlers: with at
    most one column in the old image, nothing is sent and the milestone cache
    is not touched, whatever the columns hold. *)
Lemma update_without_old_data_sends_nothing t p now s :
  t = Users \/ t = Copy_Wallets ->
  (size (oldOrEmpty p) <= 1)%nat ->
  sent (onChange t UPDATE p now s) = []
  /\ milestoneCache (store_after (onChange t UPDATE p now s)) = milestoneCache s.
Proof.
  intros Ht Hsize. unfold onChange.
  assert (Hlt : (1 <? size (oldOrEmpty p))%nat = false) by (apply Nat.ltb_ge; lia).
  assert (Hle : (size (oldOrEmpty p) <=? 1)%nat = true) by (apply Nat.leb_le; lia).
  destruct Ht as [-> | ->]; simpl; unfold deduplicated, isDuplicateEvent;
    destruct (processedEvents s !! _); simpl; auto.
  - unfold usersUpdateBody. destruct (new p); simpl; auto. rewrite Hlt. simpl. auto.
  - unfold copyWalletsUpdateBody. rewrite Hle. simpl. auto.
Qed.

End Coercion.

(** ** The queue handler *)

Section QueueProperties.
Context `{rt : Runtime}.

(** The loop body on a message whose body [JSON.parse] rejects: it logs the
    error and the raw body and calls [deleteMessage] with the message's
    receipt handle; it settles as that call does. *)
Lemma processMessage_invalid_json m answers :
  JSON_parse (Body m) = SyntaxError ->
  processMessage m answers
  = ([LogError "Error parsing SQS message:"; LogInfo "Raw message body:";
      DeleteMessage (ReceiptHandle m)],
     tail answers,
     if default true (head answers) then Fulfilled else Rejected).
Proof.
  intros Hparse. unfold processMessage. rewrite Hparse. reflexivity.
Qed.

Lemma countIf_app {A} (f : A -> bool) (l1 l2 : list A) :
  countIf f (l1 ++ l2) = (countIf f l1 + countIf f l2)%nat.
Proof. unfold countIf. now rewrite List.filter_app, length_app. Qed.

(** Each delete call of the loop body takes the next answer. *)
Lemma processMessage_answers m answers :
  (processMessage m answers).1.2
  = drop (countIf isAnyDelete (processMessage m answers).1.1) answers.
Proof.
  unfold processMessage, onParseError, processSQSOrder, deleteMessage.
  destruct (JSON_parse (Body m)); simpl; try (now destruct answers).
  destruct answers as [|[] [|a answers]]; reflexivity.
Qed.

(** The loop over a batch, cut at any place its first part gets through. *)
Lemma forEachMessage_app before rest answers :
  (forEachMessage before answers).2 = Fulfilled ->
  forEachMessage (before ++ rest) answers
  = let following :=
      forEachMessage rest
        (drop (countIf isAnyDelete (forEachMessage before answers).1) answers) in
    (((forEachMessage before answers).1 ++ following.1)%list, following.2).
Proof.
  revert answers. induction before as [|m before IH]; intros answers.
  - intros _. unfold countIf. simpl. rewrite drop_0.
    now destruct (forEachMessage rest answers).
  - rewrite <- app_comm_cons. cbn [forEachMessage].
    pose proof (processMessage_answers m answers) as Hans.
    destruct (processMessage m answers) as [[tr answers1] c]. simpl in Hans.
    destruct c; [|discriminate].
    specialize (IH answers1).
    destruct (forEachMessage before answers1) as [tr1 c1]. simpl in *.
    intros ->. rewrite IH by reflexivity. cbv zeta.
    rewrite countIf_app, Hans, drop_drop.
    destruct (forEachMessage rest _). simpl. now rewrite <- app_assoc.
Qed.

(** C8, as amended.  A batch holds a message whose body [JSON.parse]
    rejects, and the loop gets through the messages before it; the records
    of the other messages hold primitives.  Then the run of
    [pollSQSMessages] logs the error and the raw body of the message and
    calls [deleteMessage] with its receipt handle, with no chat-send call
    and no call of [processSQSOrder] for it.  When the delete call resolves,
    the loop goes on with the messages that follow; when it is rejected, the
    messages that follow are left, the polling error is logged, and in both
    cases the next poll is scheduled. *)
Theorem invalid_json_acknowledged_not_sent before m after answers :
  JSON_parse (Body m) = SyntaxError ->
  primitiveRecords (before ++ after) ->
  (forEachMessage before answers).2 = Fulfilled ->
  let reached := (forEachMessage before answers).1 in
  let own := [LogError "Error parsing SQS message:"; LogInfo "Raw message body:";
              DeleteMessage (ReceiptHandle m)] in
  let pending := drop (countIf isAnyDelete reached) answers in
  let following := forEachMessage after (tail pending) in
  pollSQSMessages (ReceiveResolved (Some (before ++ m :: after)%list)) answers
  = (LogInfo "Received" :: reached ++ own
       ++ (if default true (head pending)
           then following.1
                  ++ match following.2 with
                     | Fulfilled => []
                     | Rejected => [LogError "Error polling SQS:"]
                     end
           else [LogError "Error polling SQS:"])
       ++ [SetTimeout 1000])%list
  /\ existsb isSend own = false.
Proof.
  intros Hparse _ Hreached reached own pending following.
  split; [|reflexivity].
  assert (Hloop : forEachMessage (before ++ m :: after)%list answers
                  = if default true (head pending)
                    then ((reached ++ own ++ following.1)%list, following.2)
                    else ((reached ++ own)%list, Rejected)).
  { rewrite (forEachMessage_app before (m :: after) answers Hreached).
    fold reached pending. cbn [forEachMessage].
    rewrite (processMessage_invalid_json m pending Hparse).
    destruct (default true (head pending)); [|reflexivity].
    fold following. destruct following as [tr c]. reflexivity. }
  unfold pollSQSMessages.
  destruct (before ++ m :: after)%list as [|m0 batch] eqn:Hbatch.
  { destruct before; discriminate Hbatch. }
  rewrite Hloop.
  destruct (default true (head pending)); simpl.
  - destruct (following.2); simpl; rewrite <- ?app_assoc; reflexivity.
  - rewrite <- !app_assoc. reflexivity.
Qed.

(** When the delete calls resolve, every message of a batch is handled in
    turn and the next poll is scheduled. *)
Lemma processMessage_deletes_resolve m :
  exists tr, processMessage m [] = (tr, [], Fulfilled).
Proof.
  unfold processMessage, onParseError, deleteMessage.
  destruct (JSON_parse (Body m)); simpl; eexists; reflexivity.
Qed.

Lemma forEachMessage_deletes_resolve msgs :
  forEachMessage msgs []
  = (flat_map (fun m => (processMessage m []).1.1) msgs, Fulfilled).
Proof.
  induction msgs as [|m msgs IH]; [reflexivity|].
  cbn [forEachMessage flat_map].
  destruct (processMessage_deletes_resolve m) as [tr ->].
  now rewrite IH.
Qed.

Lemma poll_deletes_resolve m msgs :
  pollSQSMessages (ReceiveResolved (Some (m :: msgs))) []
  = (LogInfo "Received"
     :: flat_map (fun m => (processMessage m []).1.1) (m :: msgs) ++ [SetTimeout 1000])%list.
Proof.
  unfold pollSQSMessages. rewrite forEachMessage_deletes_resolve.
  simpl. now rewrite app_nil_r.
Qed.

End QueueProperties.

(** ** Worked examples of the classifier and the queue handler *)

Section ClassifierExamples.
#[local] Existing Instance example_runtime.


(** The deposit gate on three updates: 0 to 0.02 is announced, and the
    amount line reads [+0.02]; 0 to 0.01 is not announced; 100 to 100.01 is
    announced, because the computed difference of these two binary64 numbers
    is 0.010000000000005116. *)
Lemma deposit_gate_examples :
  map text (sent (onChange Users UPDATE (depositUpdate (Num 0) (Num 0.02)) T0 empty_store))
  = ["💰 <b>Deposit detected</b>" +:+ nl +:+
     "User: @alice (<code>u1</code>)" +:+ nl +:+
     "Amount: <b>+0.02</b>" +:+ nl +:+
     "New total: <b>0.02</b>"]
  /\ sent (onChange Users UPDATE (depositUpdate (Num 0) (Num 0.01)) T0 empty_store) = []
  /\ JsNum.sub 100.01 100 = 0.010000000000005116%float
  /\ map label
       (sent (onChange Users UPDATE (depositUpdate (Num 100) (Num 100.01)) T0 empty_store))
     = ["Users UPDATE (deposit):"].
Proof. vm_compute. repeat split; reflexivity. Qed.



(** C2 on the code.  An Auto_Trade UPDATE whose old image holds the primary
    key alone is classified: the missing old status reads as the empty
    string, the new status differs from it, and the notification goes out.
    The same old image on Users or Copy_Wallets sends nothing. *)
Lemma autoTrade_update_without_old_data_notifies :
  size (oldOrEmpty tradeExecuted) = 1%nat
  /\ map label (sent (onChange Auto_Trade UPDATE tradeExecuted T0 empty_store))
     = ["Auto_Trade UPDATE (executed):"]
  /\ sent (onChange Users UPDATE tradeExecuted T0 empty_store) = []
  /\ sent (onChange Copy_Wallets UPDATE tradeExecuted T0 empty_store) = [].
Proof. vm_compute. repeat split; reflexivity. Qed.

(** C8 as first stated fails.  A batch holds two messages whose bodies are
    no JSON text, and the delete call for the first is rejected: the first
    message stays in the queue, and for the second there is no delete call
    in this run; both are received again. *)
Lemma malformed_message_not_acknowledged :
  let tr := pollSQSMessages (ReceiveResolved (Some [brokenMessage; brokenAgain])) [false] in
  JSON_parse (Body brokenMessage) = SyntaxError
  /\ JSON_parse (Body brokenAgain) = SyntaxError
  /\ tr = [LogInfo "Received"; LogError "Error parsing SQS message:";
           LogInfo "Raw message body:"; DeleteMessage (ReceiptHandle brokenMessage);
           LogError "Error polling SQS:"; SetTimeout 1000]
  /\ countIf (isDelete (ReceiptHandle brokenAgain)) tr = 0%nat.
Proof. vm_compute. repeat split; reflexivity. Qed.

(** C8 as amended, at a concrete input: an order, then a message whose body
    is no JSON text, then an order; every delete call resolves. *)
Lemma invalid_json_witness :
  pollSQSMessages (ReceiveResolved (Some ([emptyOrder] ++ brokenMessage :: [emptyOrder])%list)) []
  = [LogInfo "Received";
     LogInfo "Processing SQS order:"; SendMessage (orderMsg ∅);
     DeleteMessage (ReceiptHandle emptyOrder);
     LogError "Error parsing SQS message:"; LogInfo "Raw message body:";
     DeleteMessage (ReceiptHandle brokenMessage);
     LogInfo "Processing SQS order:"; SendMessage (orderMsg ∅);
     DeleteMessage (ReceiptHandle emptyOrder);
     SetTimeout 1000].
Proof.
  destruct (invalid_json_acknowledged_not_sent (rt := example_runtime)
              [emptyOrder] brokenMessage [emptyOrder] []) as [H _].
  - vm_compute. reflexivity.
  - repeat constructor; intros r Hr; vm_compute in Hr; injection Hr as <-; reflexivity.
  - vm_compute. reflexivity.
  - rewrite H. vm_compute. reflexivity.
Defined.

(** C10 on the code.  The status of a queue record reaches the chat text
    without passing through [escapeHtml]: a status [<i>] appears as it is,
    where [escapeHtml] would have written [&lt;i&gt;]. *)
Lemma order_status_not_escaped :
  orderMsg (list_to_map [("status", Str "<i>"); ("username", Str "<bob>")])
  = "📊 <b>Order <i></b> 🔴" +:+ nl +:+
    "User: @&lt;bob&gt; (<code></code>)" +:+ nl +:+
    "Market: <b></b>" +:+ nl +:+
    "Side: <b></b> | Outcome: <b></b>" +:+ nl +:+
    "Amount: <b>$0</b> | Shares: <b>0</b>" +:+ nl +:+
    "Price: <b>0</b>" +:+ nl +:+
    "Order ID: <code></code>" +:+ nl +:+
    "TX Hash: <code></code>" +:+ nl +:+
    "Time: <code></code>"
  /\ escapeHtml (Str "<i>") = "&lt;i&gt;".
Proof. vm_compute. split; reflexivity. Qed.

End ClassifierExamples.

(** * Further properties of the code *)

(** ** [escapeHtml] on strings *)

Lemma entityOf_cases a :
  (a = "&"%char /\ entityOf a = "&amp;")
  \/ (a = "<"%char /\ entityOf a = "&lt;")
  \/ (a = ">"%char /\ entityOf a = "&gt;")
  \/ (a <> "&"%char /\ a <> "<"%char /\ a <> ">"%char /\ entityOf a = String a EmptyString).
Proof.
  unfold entityOf.
  destruct (Ascii.eqb_spec a "&"); [left; auto|].
  destruct (Ascii.eqb_spec a "<"); [right; left; auto|].
  destruct (Ascii.eqb_spec a ">"); [right; right; left; auto|].
  right. right. right. auto.
Qed.

Lemma encode_inj s1 s2 : encode s1 = encode s2 -> s1 = s2.
Proof.
  revert s2. induction s1 as [|a s1 IH]; intros [|b s2]; cbn [encode]; intros H.
  - reflexivity.
  - destruct (entityOf_cases b) as [[_ E]|[[_ E]|[[_ E]|(_ & _ & _ & E)]]];
      rewrite E in H; discriminate H.
  - destruct (entityOf_cases a) as [[_ E]|[[_ E]|[[_ E]|(_ & _ & _ & E)]]];
      rewrite E in H; discriminate H.
  - destruct (entityOf_cases a) as [[Ha Ea]|[[Ha Ea]|[[Ha Ea]|(Ha1 & Ha2 & Ha3 & Ea)]]];
    destruct (entityOf_cases b) as [[Hb Eb]|[[Hb Eb]|[[Hb Eb]|(Hb1 & Hb2 & Hb3 & Eb)]]];
      rewrite Ea, Eb in H; rewrite ?append_cons in H;
      try discriminate H; subst;
      try (injection H as H; f_equal; now apply IH);
      try (injection H as H' H; congruence).
  injection H as -> H. f_equal. apply IH. exact H.
Qed.

Lemma replaceAll_absent c rep s : occurs c s = false -> replaceAll c rep s = s.
Proof.
  induction s as [|a s IH]; simpl; [reflexivity|].
  intros [Ha Hs]%orb_false_iff. rewrite Ha. now rewrite IH.
Qed.

Lemma countChar_append c a b : countChar c (a +:+ b) = (countChar c a + countChar c b)%nat.
Proof.
  induction a as [|x a IH]; [reflexivity|].
  rewrite append_cons. simpl. rewrite IH. lia.
Qed.

Lemma countChar_absent c s : occurs c s = false -> countChar c s = 0%nat.
Proof.
  induction s as [|a s IH]; simpl; [reflexivity|].
  intros [-> Hs]%orb_false_iff. now rewrite IH.
Qed.

Section EscapedText.
Context `{rt : Runtime}.

(** X2.  On a string, [escapeHtml] encodes each character exactly once:
    [&], [<] and [>] become [&amp;], [&lt;] and [&gt;], every other character
    stays, and the ampersands of the entities are not encoded again. *)
Theorem escapeHtml_encodes_each_character_once (s : string) :
  escapeHtml (Str s) = encode s.
Proof. unfold escapeHtml. simpl. apply three_passes_encode. Qed.

(** X3.  Two different strings are escaped to two different texts. *)
Theorem escapeHtml_distinct_texts_stay_distinct (s1 s2 : string) :
  escapeHtml (Str s1) = escapeHtml (Str s2) -> s1 = s2.
Proof.
  unfold escapeHtml. simpl. rewrite !three_passes_encode. apply encode_inj.
Qed.

(** X4.  A string without [&], [<] and [>] is left as it is. *)
Theorem escapeHtml_keeps_plain_text (s : string) :
  occurs "&" s = false -> occurs "<" s = false -> occurs ">" s = false ->
  escapeHtml (Str s) = s.
Proof.
  intros H1 H2 H3. unfold escapeHtml. simpl.
  rewrite (replaceAll_absent "&" _ s H1), (replaceAll_absent "<" _ s H2).
  now apply replaceAll_absent.
Qed.

Lemma countChar_escapeHtml v :
  countChar "<" (escapeHtml v) = 0%nat /\ countChar ">" (escapeHtml v) = 0%nat.
Proof.
  split; apply countChar_absent.
  - destruct v; simpl; try reflexivity;
      (apply replaceAll_keeps_absent; [reflexivity|]; now apply replaceAll_removes).
  - destruct v; simpl; try reflexivity; now apply replaceAll_removes.
Qed.

(** Rewrites the number of brackets of every escaped piece to zero. *)
Ltac escaped_pieces_have_no_brackets :=
  repeat match goal with
         | |- context [countChar "<" (escapeHtml ?v)] =>
             rewrite (proj1 (countChar_escapeHtml v))
         | |- context [countChar ">" (escapeHtml ?v)] =>
             rewrite (proj2 (countChar_escapeHtml v))
         end.

(** X5.  In the text of a queue order the angle brackets are the 22 pairs
    of the template plus those of the five pieces that are interpolated
    without [escapeHtml]: the status emoji, the status, and the amount, the
    shares and the price as [fmt] prints them.  No other field of the record
    can add a bracket. *)
Theorem order_message_brackets_come_from_template_and_raw_fields (orderData : row) :
  let raw :=
    [ToString (or_else (statusEmoji (ToString (get orderData "status"))) (Str "📊"));
     ToString (get orderData "status"); fmt (get orderData "amount");
     fmt (get orderData "shares"); fmt (get orderData "executionPrice")] in
  countChar "<" (orderMsg orderData) = (22 + list_sum (map (countChar "<") raw))%nat
  /\ countChar ">" (orderMsg orderData) = (22 + list_sum (map (countChar ">") raw))%nat.
Proof.
  unfold orderMsg. cbv zeta.
  rewrite !countChar_append. escaped_pieces_have_no_brackets.
  destruct (isYES (get orderData "side")); simpl; split; lia.
Qed.

(** X6.  Whatever the row holds, the texts for a failed and for a skipped
    trade carry the angle brackets of their templates and no other: twelve
    pairs and eight pairs. *)
Theorem trade_failure_messages_carry_only_template_brackets (trade : row) :
  countChar "<" (tradeFailedMsg trade) = 12%nat
  /\ countChar ">" (tradeFailedMsg trade) = 12%nat
  /\ countChar "<" (tradeSkippedMsg trade) = 8%nat
  /\ countChar ">" (tradeSkippedMsg trade) = 8%nat.
Proof.
  unfold tradeFailedMsg, tradeSkippedMsg, tradeUserLine, tradeMarketLine, tradeSideLine.
  rewrite !countChar_append. escaped_pieces_have_no_brackets.
  repeat split; reflexivity.
Qed.

End EscapedText.

(** ** The event id *)


Section EventId.
Context `{rt : Runtime}.

(** An image that carries [updated_at] or [created_at] gets the same id
    whenever it arrives. *)
Lemma generateEventId_ignores_clock t event p now1 now2 :
  truthy (get_opt (new p) "updated_at") = true
  \/ truthy (get_opt (new p) "created_at") = true ->
  generateEventId t event p now1 = generateEventId t event p now2.
Proof.
  intros H. unfold generateEventId, or_else.
  destruct (truthy (get_opt (new p) "updated_at")); [reflexivity|].
  destruct H as [H|H]; [discriminate|]. now rewrite H.
Qed.

(** X7.  Events of different tables or of different operations never get
    the same id, whatever their rows and arrival times. *)
Theorem generateEventId_tells_tables_and_operations_apart
    t event p now t' event' p' now' :
  generateEventId t event p now = generateEventId t' event' p' now' ->
  t = t' /\ event = event'.
Proof.
  unfold generateEventId.
  generalize (ToString (or_else (get_opt (new p) "id") (get_opt (old p) "id")) +:+ ":" +:+
     ToString (or_else (get_opt (new p) "updated_at")
        (or_else (get_opt (new p) "created_at") (Num (JsNum.ofTime now)))) +:+ ":" +:+
     match event, new p with
     | UPDATE, Some after =>
         match relevantFields t with
         | Some fields => String.substring 0 10 (base64 (join "|" (map (get after) fields)))
         | None => ""
         end
     | _, _ => ""
     end).
  generalize (ToString (or_else (get_opt (new p') "id") (get_opt (old p') "id")) +:+ ":" +:+
     ToString (or_else (get_opt (new p') "updated_at")
        (or_else (get_opt (new p') "created_at") (Num (JsNum.ofTime now')))) +:+ ":" +:+
     match event', new p' with
     | UPDATE, Some after =>
         match relevantFields t' with
         | Some fields => String.substring 0 10 (base64 (join "|" (map (get after) fields)))
         | None => ""
         end
     | _, _ => ""
     end).
  intros r' r H.
  destruct t, t', event, event'; cbv in H; try discriminate H; auto.
Qed.


End EventId.

(** ** The duplicate store over a run *)

Section StoreOverRuns.
Context `{rt : Runtime}.

Lemma step_notLaterThan i s c :
  notLaterThan c s -> (c <= clock i)%Z -> notLaterThan (clock i) (store_after (step i s)).
Proof.
  intros Hs Hc k ts. destruct i as [now|t event p now]; simpl in *.
  - intros [H _]%sweep_processedEvents_lookup. apply Hs in H. lia.
  - unfold onChange. destruct (handlerBody t event) as [body|] eqn:Hb.
    + unfold deduplicated, isDuplicateEvent.
      destruct (processedEvents s !! generateEventId t event p now) eqn:E.
      * simpl. intros H. apply Hs in H. lia.
      * rewrite (body_keeps_processedEvents _ _ _ _ _ Hb). simpl.
        intros H. apply lookup_insert_Some in H as [[_ <-]|[_ H]]; [lia|].
        apply Hs in H. lia.
    + simpl. intros H. apply Hs in H. lia.
Qed.

Lemma run_notLaterThan tr s c :
  notLaterThan c s -> clocksFrom c tr -> notLaterThan (lastClock c tr) (run tr s).
Proof.
  revert s c. induction tr as [|i tr IH]; intros s c Hs Hc; [exact Hs|].
  destruct Hc as [Hi Hc]. rewrite run_cons.
  apply (IH _ (clock i)); [|exact Hc]. now apply (step_notLaterThan _ _ c).
Qed.

(** X9.  An event whose new image carries [updated_at] or [created_at] and
    that is delivered again with the same payload, at most
    [EVENT_CACHE_TTL] after its first sight, sends nothing the second time,
    whatever its arrival times: its id does not read the clock. *)
Theorem same_payload_redelivered_is_suppressed t event p now1 now2 mid s0 :
  handlerBody t event <> None ->
  truthy (get_opt (new p) "updated_at") = true
  \/ truthy (get_opt (new p) "created_at") = true ->
  processedEvents s0 !! generateEventId t event p now1 = None ->
  Forall (fun i => (clock i <= now2)%Z) mid ->
  (now2 - now1 <= EVENT_CACHE_TTL)%Z ->
  sent (step (Change t event p now2) (run (Change t event p now1 :: mid) s0)) = [].
Proof.
  intros Hb Hstamp Hnew Hmid Hwin.
  destruct (handlerBody t event) as [body|] eqn:Hbody; [|congruence].
  assert (Hs : processedEvents (run (Change t event p now1 :: mid) s0)
               !! generateEventId t event p now1 = Some now1).
  { rewrite run_cons. apply run_keeps_entry.
    - simpl. rewrite (onChange_new _ _ _ _ _ _ Hbody Hnew).
      rewrite (body_keeps_processedEvents _ _ _ _ _ Hbody). simpl.
      apply lookup_insert_eq.
    - eapply Forall_impl; [exact Hmid|]. simpl. intros i Hi. lia. }
  simpl. rewrite (onChange_seen t event p now2 _ now1); [reflexivity|congruence|].
  now rewrite (generateEventId_ignores_clock t event p now2 now1 Hstamp).
Qed.

(** An entry stays where it is through a delivery, whatever the clock
    reads, and through a sweep that runs no later than [EVENT_CACHE_TTL]
    after the entry's timestamp. *)
Lemma step_keeps_entry_until_swept i s k ts :
  processedEvents s !! k = Some ts ->
  noSweepAfter (ts + EVENT_CACHE_TTL) i ->
  processedEvents (store_after (step i s)) !! k = Some ts.
Proof.
  intros Hk Hi. destruct i as [now|t event p now]; simpl in *.
  - apply sweep_processedEvents_lookup. split; [exact Hk|].
    apply gtb_false. lia.
  - unfold onChange. destruct (handlerBody t event) as [body|] eqn:Hb; [|exact Hk].
    unfold deduplicated, isDuplicateEvent.
    destruct (processedEvents s !! generateEventId t event p now) eqn:E; [exact Hk|].
    rewrite (body_keeps_processedEvents _ _ _ _ _ Hb). simpl.
    rewrite lookup_insert_ne; [exact Hk|congruence].
Qed.

Lemma run_keeps_entry_until_swept tr s k ts :
  processedEvents s !! k = Some ts ->
  Forall (noSweepAfter (ts + EVENT_CACHE_TTL)) tr ->
  processedEvents (run tr s) !! k = Some ts.
Proof.
  revert s. induction tr as [|i tr IH]; intros s Hk Hall; [exact Hk|].
  apply Forall_cons in Hall as [Hi Hall]. rewrite run_cons.
  apply IH; [|exact Hall]. now apply step_keeps_entry_until_swept.
Qed.

(** X10.  A duplicate does not renew the entry of its id.  The id [k] is
    first seen at [now1]; whatever is delivered afterwards and whenever,
    also events with id [k], the entry keeps the timestamp [now1] as long
    as no sweep runs later than [EVENT_CACHE_TTL] after [now1], and the
    first sweep that does removes it. *)
Theorem duplicates_do_not_extend_the_window t event p now1 mid nowT s0 k :
  keyOf (Change t event p now1) = Some k ->
  processedEvents s0 !! k = None ->
  Forall (noSweepAfter (now1 + EVENT_CACHE_TTL)) mid ->
  (nowT - now1 > EVENT_CACHE_TTL)%Z ->
  processedEvents (run (Change t event p now1 :: mid) s0) !! k = Some now1
  /\ processedEvents (run (Change t event p now1 :: mid ++ [Tick nowT]) s0) !! k = None.
Proof.
  intros Hk Hnew Hmid Hold. simpl in Hk.
  destruct (handlerBody t event) as [body|] eqn:Hb; [|discriminate].
  injection Hk as Hk.
  assert (H1 : processedEvents (run (Change t event p now1 :: mid) s0) !! k = Some now1).
  { rewrite run_cons. apply run_keeps_entry_until_swept; [|exact Hmid].
    simpl. rewrite (onChange_new _ _ _ _ _ _ Hb) by now rewrite Hk.
    rewrite (body_keeps_processedEvents _ _ _ _ _ Hb). simpl.
    rewrite Hk. apply lookup_insert_eq. }
  split; [exact H1|].
  rewrite app_comm_cons, run_app. unfold run at 1. simpl.
  eapply sweep_drops_old; eauto.
Qed.

(** X11.  When the clock never goes back, the duplicate store right after a
    sweep at [now] holds only events first seen in the five minutes up to
    [now]. *)
Theorem after_a_sweep_store_holds_last_five_minutes tr now s0 c k ts :
  notLaterThan c s0 ->
  clocksFrom c (tr ++ [Tick now]) ->
  processedEvents (run (tr ++ [Tick now]) s0) !! k = Some ts ->
  (now - EVENT_CACHE_TTL <= ts <= now)%Z.
Proof.
  intros Hs Hc Hk.
  pose proof (run_notLaterThan _ _ _ Hs Hc k ts Hk) as Hle.
  unfold lastClock in Hle. rewrite foldl_app in Hle. simpl in Hle.
  rewrite run_app in Hk. unfold run at 1 in Hk. simpl in Hk.
  apply sweep_processedEvents_lookup in Hk as [_ Hfresh%gtb_false]. lia.
Qed.

End StoreOverRuns.

(** ** The milestone tracker over several calls *)

Lemma lt_not_ge a b : JsNum.lt a b = true -> JsNum.ge a b = true -> False.
Proof.
  intros H1%Binary64.lt_view H2%Binary64.ge_view.
  apply (Binary64.SFcompare_not_Lt_refl (Prim2SF a)).
  destruct H2 as [H2|H2].
  - eapply Binary64.SFcompare_Lt_trans; eauto.
  - eapply Binary64.SFcompare_Lt_Eq_trans; eauto.
Qed.

Lemma firstCrossing_not_rising oldValue newValue lastNotified ms :
  JsNum.ge oldValue newValue = true ->
  firstCrossing oldValue newValue lastNotified ms = None.
Proof.
  intros Hdown. induction ms as [|m ms IH]; [reflexivity|]. simpl. rewrite IH.
  destruct (JsNum.lt oldValue m) eqn:E1; [|reflexivity].
  destruct (JsNum.ge newValue m) eqn:E2; [|reflexivity].
  exfalso. apply (lt_not_ge oldValue m E1).
  eapply Binary64.ge_trans; eauto.
Qed.

Lemma atLeast_trans a b c : atLeast a b -> atLeast b c -> atLeast a c.
Proof.
  intros [->|H1] [->|H2]; [left|right|right|right]; auto.
  eapply Binary64.lt_trans; eauto.
Qed.

Section MilestoneCalls.
Context `{rt : Runtime}.

Lemma cacheKeys_differ userId :
  cacheKeyOf userId "volume" <> cacheKeyOf userId "txns".
Proof.
  unfold cacheKeyOf. intros H. apply (inj (String.append _)) in H. discriminate H.
Qed.

(** X12.  An update whose new value is not above its old value announces no
    milestone and leaves the cache as it was, whatever the ladder and the
    recorded mark. *)
Theorem falling_value_announces_nothing
    userId milestoneType oldValue newValue ms gen cache :
  JsNum.ge oldValue newValue = true ->
  checkAndNotifyMilestone userId milestoneType oldValue newValue ms gen cache = (None, cache).
Proof.
  intros H. apply checkAndNotifyMilestone_none. now apply firstCrossing_not_rising.
Qed.

Lemma applyCall_result c cache :
  match firstCrossing (callOld c) (callNew c)
          (lastNotifiedOf (cacheKeyOf (callUser c) (callType c)) cache) (callLadder c) with
  | Some t =>
      applyCall c cache
      = (Some (callGenerator c t (callNew c)),
         <[cacheKeyOf (callUser c) (callType c) := t]> cache)
  | None => applyCall c cache = (None, cache)
  end.
Proof.
  unfold applyCall, checkAndNotifyMilestone.
  destruct (firstCrossing _ _ _ _); reflexivity.
Qed.

(** No call lowers the mark read back for any key. *)
Lemma applyCall_mark_atLeast key c cache :
  atLeast (lastNotifiedOf key cache) (lastNotifiedOf key (applyCall c cache).2).
Proof.
  pose proof (applyCall_result c cache) as H.
  destruct (firstCrossing _ _ _ _) as [t|] eqn:E; rewrite H; simpl; [|now left].
  apply firstCrossing_Some in E as (_ & _ & _ & Hgt).
  destruct (decide (key = cacheKeyOf (callUser c) (callType c))) as [->|Hne].
  - right. rewrite lastNotifiedOf_insert. now apply readback_above.
  - left. unfold lastNotifiedOf. now rewrite lookup_insert_ne.
Qed.

Lemma runCalls_mark_atLeast key calls cache :
  atLeast (lastNotifiedOf key cache) (lastNotifiedOf key (runCalls calls cache)).
Proof.
  revert cache. induction calls as [|c calls IH]; intros cache; [now left|].
  simpl. eapply atLeast_trans; [apply applyCall_mark_atLeast|apply IH].
Qed.

(** X13.  As long as the cache is not swept, a threshold is announced at
    most once per user and metric, and announcements come in rising order:
    when a call returns the message of threshold [t] and, after any further
    calls for any users and metrics, a call for the same user and metric
    returns the message of threshold [t'], then [t'] is strictly above
    [t]. *)
Theorem threshold_never_announced_twice c calls c' cache msg cache1 msg' cache3 :
  cacheKeyOf (callUser c') (callType c') = cacheKeyOf (callUser c) (callType c) ->
  applyCall c cache = (Some msg, cache1) ->
  applyCall c' (runCalls calls cache1) = (Some msg', cache3) ->
  exists t t',
    t ∈ callLadder c /\ msg = callGenerator c t (callNew c)
    /\ t' ∈ callLadder c' /\ msg' = callGenerator c' t' (callNew c')
    /\ JsNum.lt t t' = true.
Proof.
  intros Hkey H1 H2.
  pose proof (applyCall_result c cache) as R1.
  destruct (firstCrossing _ _ _ (callLadder c)) as [t|] eqn:E1;
    rewrite R1 in H1; [|discriminate]. injection H1 as <- <-.
  pose proof (applyCall_result c' (runCalls calls
                (<[cacheKeyOf (callUser c) (callType c) := t]> cache))) as R2.
  destruct (firstCrossing _ _ _ (callLadder c')) as [t'|] eqn:E2;
    rewrite R2 in H2; [|discriminate]. injection H2 as <- _.
  apply firstCrossing_Some in E1 as (Hin & _ & _ & Hgt).
  apply firstCrossing_Some in E2 as (Hin' & _ & _ & Hgt').
  exists t, t'. repeat (split; [assumption || reflexivity|]).
  rewrite Hkey in Hgt'.
  pose proof (runCalls_mark_atLeast (cacheKeyOf (callUser c) (callType c)) calls
                (<[cacheKeyOf (callUser c) (callType c) := t]> cache)) as Hmark.
  rewrite lastNotifiedOf_insert in Hmark.
  apply readback_below.
  - destruct Hmark as [Heq|Hlt].
    + rewrite Heq. exact Hgt'.
    + eapply Binary64.lt_trans; [exact Hlt|exact Hgt'].
  - unfold JsNum.truthy. destruct (JsNum.eq t 0) eqn:Ez; [now right|left].
    simpl. destruct (JsNum.isNaN t) eqn:En; [|reflexivity].
    unfold JsNum.gt in Hgt. now rewrite Binary64.lt_NaN_r in Hgt.
Qed.

Lemma checkAndNotifyMilestone_other_key userId milestoneType oldValue newValue ms gen
    k m cache :
  k <> cacheKeyOf userId milestoneType ->
  (checkAndNotifyMilestone userId milestoneType oldValue newValue ms gen (<[k := m]> cache)).1
  = (checkAndNotifyMilestone userId milestoneType oldValue newValue ms gen cache).1.
Proof.
  intros Hne. unfold checkAndNotifyMilestone.
  replace (lastNotifiedOf (cacheKeyOf userId milestoneType) (<[k := m]> cache))
    with (lastNotifiedOf (cacheKeyOf userId milestoneType) cache).
  - destruct (firstCrossing _ _ _ _); reflexivity.
  - unfold lastNotifiedOf. now rewrite lookup_insert_ne.
Qed.

Lemma milestone_signal_after_other_write userId milestoneType oldValue newValue ms gen
    userId' milestoneType' oldValue' newValue' ms' gen' cache :
  cacheKeyOf userId' milestoneType' <> cacheKeyOf userId milestoneType ->
  (checkAndNotifyMilestone userId milestoneType oldValue newValue ms gen
     (checkAndNotifyMilestone userId' milestoneType' oldValue' newValue' ms' gen' cache).2).1
  = (checkAndNotifyMilestone userId milestoneType oldValue newValue ms gen cache).1.
Proof.
  intros Hne. unfold checkAndNotifyMilestone at 2.
  destruct (firstCrossing _ _ _ ms'); simpl; [|reflexivity].
  now apply checkAndNotifyMilestone_other_key.
Qed.

(** X14.  In a Users UPDATE the volume block and the transaction block keep
    their marks under different keys for every user id: what the
    transaction block sends does not depend on what the volume block has
    just recorded, and the other way round. *)
Theorem volume_and_txn_marks_do_not_interfere userNew userOld cache :
  (txnSignal userNew userOld (volumeSignal userNew userOld cache).2).1
  = (txnSignal userNew userOld cache).1
  /\ (volumeSignal userNew userOld (txnSignal userNew userOld cache).2).1
     = (volumeSignal userNew userOld cache).1.
Proof.
  pose proof (cacheKeys_differ (get userNew "id")) as Hne.
  unfold txnSignal, volumeSignal. split.
  - pose proof (milestone_signal_after_other_write
      (get userNew "id") "txns" (numericField userOld "txns_executed")
      (numericField userNew "txns_executed") txnMilestones
      (txnMsgOf (get userNew "telegram_username") (get userNew "id")
         (get userNew "markets_traded"))
      (get userNew "id") "volume" (numericField userOld "total_volume")
      (numericField userNew "total_volume") volumeMilestones
      (volumeMsgOf (get userNew "telegram_username") (get userNew "id")) cache Hne) as H.
    destruct (checkAndNotifyMilestone _ "volume" _ _ _ _ cache) as [v c1]. simpl in *.
    destruct (checkAndNotifyMilestone _ "txns" _ _ _ _ c1) as [a c2].
    destruct (checkAndNotifyMilestone _ "txns" _ _ _ _ cache) as [b c3].
    simpl in *. now rewrite H.
  - pose proof (milestone_signal_after_other_write
      (get userNew "id") "volume" (numericField userOld "total_volume")
      (numericField userNew "total_volume") volumeMilestones
      (volumeMsgOf (get userNew "telegram_username") (get userNew "id"))
      (get userNew "id") "txns" (numericField userOld "txns_executed")
      (numericField userNew "txns_executed") txnMilestones
      (txnMsgOf (get userNew "telegram_username") (get userNew "id")
         (get userNew "markets_traded")) cache (not_eq_sym Hne)) as H.
    destruct (checkAndNotifyMilestone _ "txns" _ _ _ _ cache) as [v c1]. simpl in *.
    destruct (checkAndNotifyMilestone _ "volume" _ _ _ _ c1) as [a c2].
    destruct (checkAndNotifyMilestone _ "volume" _ _ _ _ cache) as [b c3].
    simpl in *. now rewrite H.
Qed.

End MilestoneCalls.

(** ** What the change handlers send *)

Lemma sublist_one_of {A} (x : A) (l : list A) :
  l = [] \/ l = [x] -> sublist l [x].
Proof. intros [->| ->]; [apply sublist_nil_l|reflexivity]. Qed.

Section HandlerOutputs.
Context `{rt : Runtime}.

Lemma block_labels lbl ns :
  Forall (fun n => label n = lbl) ns -> (length ns <= 1)%nat -> sublist (map label ns) [lbl].
Proof.
  intros Hall Hlen. apply sublist_one_of.
  destruct ns as [|n [|n' ns]]; simpl in *; [now left| |lia].
  right. apply Forall_cons in Hall as [-> _]. reflexivity.
Qed.

Lemma sendIfAny_length lbl msg : (length (sendIfAny lbl msg) <= 1)%nat.
Proof. unfold sendIfAny. destruct msg; [destruct (negb _)|]; simpl; lia. Qed.

(** X15.  Whatever a Users UPDATE carries, its notifications are a
    subsequence of deposit, PnL change, volume milestone, transaction
    milestone, copytrading, high fees: each kind at most once, in this
    order, so at most six. *)
Theorem users_update_notifications_in_source_order p now s :
  sublist (map label (sent (onChange Users UPDATE p now s))) usersUpdateLabels.
Proof.
  unfold onChange. simpl. unfold deduplicated.
  destruct (isDuplicateEvent _ _ _) as [[] s1]; [apply sublist_nil_l|].
  unfold usersUpdateBody. destruct (new p) as [userNew|]; [|apply sublist_nil_l].
  destruct (negb _); [apply sublist_nil_l|].
  unfold usersUpdateSignals.
  pose proof (volumeSignal_labelled userNew (oldOrEmpty p) (milestoneCache s1)) as Hv.
  assert (Hvl : (length (volumeSignal userNew (oldOrEmpty p) (milestoneCache s1)).1 <= 1)%nat).
  { unfold volumeSignal. destruct (checkAndNotifyMilestone _ _ _ _ _ _ _).
    apply sendIfAny_length. }
  destruct (volumeSignal userNew (oldOrEmpty p) (milestoneCache s1)) as [volume cache1].
  pose proof (txnSignal_labelled userNew (oldOrEmpty p) cache1) as Ht.
  assert (Htl : (length (txnSignal userNew (oldOrEmpty p) cache1).1 <= 1)%nat).
  { unfold txnSignal. destruct (checkAndNotifyMilestone _ _ _ _ _ _ _).
    apply sendIfAny_length. }
  destruct (txnSignal userNew (oldOrEmpty p) cache1) as [txns cache2].
  simpl in *. rewrite !map_app. unfold usersUpdateLabels.
  repeat (apply (sublist_app _ [_] _ (_ :: _)) || idtac).
  - apply block_labels; [apply depositSignal_labelled|].
    unfold depositSignal. destruct (_ && _); [destruct (JsNum.gt _ _)|]; simpl; lia.
  - apply block_labels; [apply pnlSignal_labelled|].
    unfold pnlSignal. destruct (JsNum.ge _ _); simpl; lia.
  - now apply block_labels.
  - now apply block_labels.
  - apply block_labels; [apply copytradingSignal_labelled|].
    unfold copytradingSignal. destruct (_ !! _); [destruct (xorb _ _)|]; simpl; lia.
  - apply block_labels; [apply feesSignal_labelled|].
    unfold feesSignal. destruct (JsNum.ge _ _); simpl; lia.
Qed.

Lemma emitted_pnl_usersUpdateSignals userNew userOld cache :
  emitted "Users UPDATE (PnL change):" (usersUpdateSignals userNew userOld cache).2
  = emitted "Users UPDATE (PnL change):" (pnlSignal userNew userOld).
Proof.
  rewrite emitted_usersUpdateSignals. other_blocks_silent userNew userOld cache.
  now rewrite !orb_false_r.
Qed.

Lemma emitted_copytrading_usersUpdateSignals userNew userOld cache :
  emitted "Users UPDATE (copytrading):" (usersUpdateSignals userNew userOld cache).2
  = emitted "Users UPDATE (copytrading):" (copytradingSignal userNew userOld).
Proof.
  rewrite emitted_usersUpdateSignals. other_blocks_silent userNew userOld cache.
  now rewrite !orb_false_r.
Qed.

Lemma emitted_fees_usersUpdateSignals userNew userOld cache :
  emitted "Users UPDATE (high fees):" (usersUpdateSignals userNew userOld cache).2
  = emitted "Users UPDATE (high fees):" (feesSignal userNew userOld).
Proof.
  rewrite emitted_usersUpdateSignals. other_blocks_silent userNew userOld cache.
  reflexivity.
Qed.

(** X16.  A new Users UPDATE with old data, whose images hold primitives,
    announces a PnL change exactly when the absolute value of the computed
    difference of the two coerced [total_pnl] values is at least 100: a
    change of exactly 100 or -100 is announced, one of 99.99 is not. *)
Theorem pnl_notified_iff_swing_of_100 p now s userNew :
  new p = Some userNew ->
  primitiveRow userNew = true ->
  primitiveRow (oldOrEmpty p) = true ->
  processedEvents s !! generateEventId Users UPDATE p now = None ->
  (1 < size (oldOrEmpty p))%nat ->
  let newPnL := numericField userNew "total_pnl" in
  let oldPnL := numericField (oldOrEmpty p) "total_pnl" in
  let pnlChange := JsNum.sub newPnL oldPnL in
  let out := onChange Users UPDATE p now s in
  (emitted "Users UPDATE (PnL change):" (sent out) = true <->
   JsNum.ge (JsNum.abs pnlChange) 100 = true)
  /\ (pnlChange = 100%float \/ pnlChange = (-100)%float ->
      emitted "Users UPDATE (PnL change):" (sent out) = true)
  /\ (pnlChange = 99.99%float -> emitted "Users UPDATE (PnL change):" (sent out) = false).
Proof.
  intros Hnew Hprim Hprim' Hk Hold newPnL oldPnL pnlChange out.
  assert (Hem : emitted "Users UPDATE (PnL change):" (sent out)
                = JsNum.ge (JsNum.abs pnlChange) 100).
  { unfold out. rewrite (usersUpdate_sent p now s userNew Hnew Hprim Hprim' Hk Hold).
    rewrite emitted_pnl_usersUpdateSignals. unfold pnlSignal.
    fold newPnL oldPnL pnlChange. destruct (JsNum.ge _ _); reflexivity. }
  rewrite Hem. split; [tauto|]. split.
  - intros [-> | ->]; reflexivity.
  - intros ->. reflexivity.
Qed.

(** X17.  A new Users UPDATE with old data, whose images hold primitives,
    announces a copytrading change exactly when the old image carries
    [is_copytrading_enabled] and its truthiness differs from that of the new
    value; an old image without the column announces nothing, whatever the
    new value. *)
Theorem copytrading_notified_iff_flag_flips p now s userNew :
  new p = Some userNew ->
  primitiveRow userNew = true ->
  primitiveRow (oldOrEmpty p) = true ->
  processedEvents s !! generateEventId Users UPDATE p now = None ->
  (1 < size (oldOrEmpty p))%nat ->
  emitted "Users UPDATE (copytrading):" (sent (onChange Users UPDATE p now s)) = true <->
  exists oldFlag,
    oldOrEmpty p !! "is_copytrading_enabled" = Some oldFlag
    /\ truthy (get userNew "is_copytrading_enabled") <> truthy oldFlag.
Proof.
  intros Hnew Hprim Hprim' Hk Hold.
  rewrite (usersUpdate_sent p now s userNew Hnew Hprim Hprim' Hk Hold).
  rewrite emitted_copytrading_usersUpdateSignals. unfold copytradingSignal.
  destruct (oldOrEmpty p !! "is_copytrading_enabled") as [oldFlag|].
  - destruct (truthy (get userNew "is_copytrading_enabled")) eqn:En,
             (truthy oldFlag) eqn:Eo; simpl; split; intros H;
      try discriminate H;
      try (exists oldFlag; split; [reflexivity|rewrite Eo; discriminate]);
      destruct H as (f & Hf & Hdiff); injection Hf as <-; rewrite Eo in Hdiff;
      congruence.
  - simpl. split; [discriminate|]. intros (f & H & _). discriminate.
Qed.

(** X18.  A new Users UPDATE with old data, whose images hold primitives,
    announces high fees exactly when the computed difference of the two
    coerced [fees_total] values is at least 50. *)
Theorem fees_notified_iff_rise_of_50 p now s userNew :
  new p = Some userNew ->
  primitiveRow userNew = true ->
  primitiveRow (oldOrEmpty p) = true ->
  processedEvents s !! generateEventId Users UPDATE p now = None ->
  (1 < size (oldOrEmpty p))%nat ->
  let feeIncrease :=
    JsNum.sub (numericField userNew "fees_total") (numericField (oldOrEmpty p) "fees_total") in
  emitted "Users UPDATE (high fees):" (sent (onChange Users UPDATE p now s)) = true <->
  JsNum.ge feeIncrease 50 = true.
Proof.
  intros Hnew Hprim Hprim' Hk Hold feeIncrease.
  rewrite (usersUpdate_sent p now s userNew Hnew Hprim Hprim' Hk Hold).
  rewrite emitted_fees_usersUpdateSignals. unfold feesSignal. fold feeIncrease.
  destruct (JsNum.ge feeIncrease 50); simpl; split; congruence.
Qed.

(** X19.  A new Auto_Trade UPDATE whose images hold primitives sends at
    most one notification; it sends one exactly when the lower-cased status
    differs from the previous one and is [executed], [failed] or [skipped],
    and the notification is the one of that status. *)
Theorem autoTrade_update_notifies_on_status_change p now s trade :
  new p = Some trade ->
  primitiveRow trade = true ->
  primitiveRow (oldOrEmpty p) = true ->
  processedEvents s !! generateEventId Auto_Trade UPDATE p now = None ->
  let status := statusOf (new p) in
  let prevStatus := statusOf (old p) in
  let out := sent (onChange Auto_Trade UPDATE p now s) in
  (length out <= 1)%nat
  /\ (out <> [] <->
      status <> prevStatus
      /\ (status = "executed" \/ status = "failed" \/ status = "skipped"))
  /\ (forall n, n ∈ out ->
        label n = "Auto_Trade UPDATE (" +:+ status +:+ "):").
Proof.
  intros Hnew _ _ Hk status prevStatus out.
  unfold out. rewrite (onChange_new Auto_Trade UPDATE autoTradeUpdateBody)
    by (reflexivity || exact Hk).
  unfold autoTradeUpdateBody. fold status prevStatus. rewrite Hnew.
  destruct (String.eqb_spec status prevStatus) as [Heq|Hne]; simpl.
  - split; [lia|]. split; [|intros n Hn; inversion Hn].
    split; [congruence|]. intros [H _]. congruence.
  - destruct (String.eqb_spec status "executed") as [->|H1]; simpl.
    { split; [lia|]. split; [split; [auto|discriminate]|].
      intros n ->%list_elem_of_singleton. reflexivity. }
    destruct (String.eqb_spec status "failed") as [->|H2]; simpl.
    { split; [lia|]. split; [split; [auto|discriminate]|].
      intros n ->%list_elem_of_singleton. reflexivity. }
    destruct (String.eqb_spec status "skipped") as [->|H3]; simpl.
    { split; [lia|]. split; [split; [auto|discriminate]|].
      intros n ->%list_elem_of_singleton. reflexivity. }
    split; [lia|]. split; [|intros n Hn; inversion Hn].
    split; [congruence|]. intros [_ [H|[H|H]]]; congruence.
Qed.

(** X20.  A new Copy_Wallets UPDATE with old data, whose images hold
    primitives, sends at most one notification: the enabled/disabled one exactly when [is_enabled]
    changed under [!==], and otherwise the ratio one exactly when the two
    [percent_ratio] values differ by more than 0.001.  A change of the ratio
    that comes together with a change of [is_enabled] is not announced. *)
Theorem copyWallets_update_sends_at_most_one p now s walletNew :
  new p = Some walletNew ->
  primitiveRow walletNew = true ->
  primitiveRow (oldOrEmpty p) = true ->
  processedEvents s !! generateEventId Copy_Wallets UPDATE p now = None ->
  (1 < size (oldOrEmpty p))%nat ->
  let flipped := strict_neq (get walletNew "is_enabled") (get (oldOrEmpty p) "is_enabled") in
  let out := sent (onChange Copy_Wallets UPDATE p now s) in
  (length out <= 1)%nat
  /\ (emitted "Copy_Wallets UPDATE (enabled/disabled):" out = flipped)
  /\ (emitted "Copy_Wallets UPDATE (ratio change):" out
      = negb flipped
        && JsNum.gt (JsNum.abs (JsNum.sub (Number (get walletNew "percent_ratio"))
                                  (Number (get (oldOrEmpty p) "percent_ratio")))) 0.001).
Proof.
  intros Hnew _ _ Hk Hold flipped out.
  unfold out. rewrite (onChange_new Copy_Wallets UPDATE copyWalletsUpdateBody)
    by (reflexivity || exact Hk).
  unfold copyWalletsUpdateBody. rewrite Hnew.
  replace (size (oldOrEmpty p) <=? 1)%nat with false
    by (symmetry; apply Nat.leb_gt; lia).
  fold flipped. destruct flipped; simpl; [repeat split; lia|].
  destruct (JsNum.gt _ _); simpl; repeat split; lia.
Qed.

(** X21.  A new INSERT that carries its row sends exactly one notification,
    for each of the four tables, whatever primitives the row holds. *)
Theorem insert_sends_one_notification t p now s after :
  new p = Some after ->
  primitiveRow after = true ->
  primitiveRow (oldOrEmpty p) = true ->
  processedEvents s !! generateEventId t INSERT p now = None ->
  exists n,
    sent (onChange t INSERT p now s) = [n]
    /\ label n = table_name t +:+ " INSERT:".
Proof.
  intros Hnew _ _ Hk.
  destruct t; simpl in Hk |- *.
  - rewrite (onChange_new Users INSERT usersInsertBody) by (reflexivity || exact Hk).
    unfold usersInsertBody. rewrite Hnew. eexists. split; reflexivity.
  - rewrite (onChange_new Auto_Trade INSERT autoTradeInsertBody) by (reflexivity || exact Hk).
    unfold autoTradeInsertBody. rewrite Hnew. eexists. split; reflexivity.
  - rewrite (onChange_new Copy_Wallets INSERT copyWalletsInsertBody)
      by (reflexivity || exact Hk).
    unfold copyWalletsInsertBody. rewrite Hnew. eexists. split; reflexivity.
  - rewrite (onChange_new Monthly_Active_Users INSERT monthlyInsertBody)
      by (reflexivity || exact Hk).
    unfold monthlyInsertBody. rewrite Hnew. eexists. split; reflexivity.
Qed.

(** X26.  Apart from the duplicate store, the Auto_Trade UPDATE handler
    sends and settles as the handler of the earlier variant of the script
    does, for every payload: [status !== prevStatus] followed by a test of
    the status is the same decision as the three tests
    [status === s && prevStatus !== s]. *)
Theorem autoTrade_update_agrees_with_legacy_handler p s :
  sent (autoTradeUpdateBody p s) = (legacyAutoTradeUpdate p).1
  /\ settled (autoTradeUpdateBody p s) = (legacyAutoTradeUpdate p).2.
Proof.
  unfold autoTradeUpdateBody, legacyAutoTradeUpdate.
  destruct (String.eqb_spec (statusOf (new p)) (statusOf (old p))) as [Heq|Hne]; simpl.
  - rewrite Heq.
    destruct (String.eqb (statusOf (old p)) "executed"),
             (String.eqb (statusOf (old p)) "failed"),
             (String.eqb (statusOf (old p)) "skipped"); simpl; auto.
  - destruct (String.eqb_spec (statusOf (new p)) "executed") as [E1|E1]; simpl.
    { replace (String.eqb (statusOf (old p)) "executed") with false
        by (symmetry; apply String.eqb_neq; congruence).
      simpl. destruct (new p); auto. }
    destruct (String.eqb_spec (statusOf (new p)) "failed") as [E2|E2]; simpl.
    { replace (String.eqb (statusOf (old p)) "failed") with false
        by (symmetry; apply String.eqb_neq; congruence).
      simpl. destruct (new p); auto. }
    destruct (String.eqb_spec (statusOf (new p)) "skipped") as [E3|E3]; simpl.
    { replace (String.eqb (statusOf (old p)) "skipped") with false
        by (symmetry; apply String.eqb_neq; congruence).
      simpl. destruct (new p); auto. }
    auto.
Qed.

End HandlerOutputs.

(** ** The queue loop *)

Section QueueLoop.
Context `{rt : Runtime}.

(** X22.  For one message of the queue, whatever its body and whatever the
    delete calls answer: the loop body calls delete for the message's own
    receipt handle once or twice and for no other handle, sends at most one
    chat message, and sends nothing after the first delete call. *)
Theorem every_message_is_deleted_and_sent_at_most_once m answers :
  let tr := (processMessage m answers).1.1 in
  (1 <= countIf (isDelete (ReceiptHandle m)) tr <= 2)%nat
  /\ countIf isAnyDelete tr = countIf (isDelete (ReceiptHandle m)) tr
  /\ (countIf isSend tr <= 1)%nat
  /\ exists front back,
       tr = (front ++ back)%list
       /\ existsb isAnyDelete front = false /\ existsb isSend back = false.
Proof.
  unfold processMessage, onParseError, processSQSOrder, deleteMessage, countIf.
  destruct (JSON_parse (Body m)) as [| |r]; simpl.
  - rewrite String.eqb_refl. simpl. repeat split; try lia.
    exists [], [LogError "Error parsing SQS message:"; LogInfo "Raw message body:";
                DeleteMessage (ReceiptHandle m)]. auto.
  - rewrite String.eqb_refl. simpl. repeat split; try lia.
    exists [], [LogError "Error parsing SQS message:"; LogInfo "Raw message body:";
                DeleteMessage (ReceiptHandle m)]. auto.
  - destruct (default true (head answers)); simpl; rewrite String.eqb_refl; simpl.
    + repeat split; try lia.
      exists [LogInfo "Processing SQS order:"; SendMessage (orderMsg r)],
             [DeleteMessage (ReceiptHandle m)]. auto.
    + repeat split; try lia.
      exists [LogInfo "Processing SQS order:"; SendMessage (orderMsg r)],
             [DeleteMessage (ReceiptHandle m); LogError "Error parsing SQS message:";
              LogInfo "Raw message body:"; DeleteMessage (ReceiptHandle m)]. auto.
Qed.

Lemma processMessage_no_timeout m answers :
  existsb isTimeout (processMessage m answers).1.1 = false.
Proof.
  unfold processMessage, onParseError, processSQSOrder, deleteMessage.
  destruct (JSON_parse (Body m)); simpl; try reflexivity.
  destruct (default true (head answers)); reflexivity.
Qed.

Lemma forEachMessage_no_timeout msgs answers :
  existsb isTimeout (forEachMessage msgs answers).1 = false.
Proof.
  revert answers. induction msgs as [|m msgs IH]; intros answers; [reflexivity|].
  cbn [forEachMessage].
  pose proof (processMessage_no_timeout m answers) as Hm.
  destruct (processMessage m answers) as [[tr answers1] c]. simpl in Hm.
  destruct c; [|exact Hm].
  specialize (IH answers1). destruct (forEachMessage msgs answers1) as [tr1 c1].
  simpl in *. now rewrite existsb_app, Hm, IH.
Qed.

(** X23.  Every run of [pollSQSMessages] ends by scheduling the next run
    one second later, and schedules nothing else: after messages, after an
    empty or absent batch (nothing else happens), after a rejected receive
    call (one error line), and after an error inside the batch. *)
Theorem poll_always_schedules_the_next_poll received answers :
  exists tr,
    pollSQSMessages received answers = (tr ++ [SetTimeout 1000])%list
    /\ existsb isTimeout tr = false
    /\ (received = ReceiveRejected -> tr = [LogError "Error polling SQS:"])
    /\ (received = ReceiveResolved None \/ received = ReceiveResolved (Some []) -> tr = []).
Proof.
  unfold pollSQSMessages.
  destruct received as [|[[|m msgs]|]].
  - eexists. split; [reflexivity|]. split; [reflexivity|]. split; [reflexivity|].
    intros [H|H]; discriminate.
  - eexists. split; [reflexivity|]. split; [reflexivity|]. split; [discriminate|]. reflexivity.
  - pose proof (forEachMessage_no_timeout (m :: msgs) answers) as H.
    destruct (forEachMessage (m :: msgs) answers) as [tr c]. simpl in H.
    eexists. split; [reflexivity|]. split.
    + simpl. rewrite existsb_app, H. now destruct c.
    + split; [discriminate|]. intros [H'|H']; discriminate.
  - eexists. split; [reflexivity|]. split; [reflexivity|]. split; [discriminate|]. reflexivity.
Qed.

Lemma forEachMessage_stops_at_rejection msgs rest answers :
  (forEachMessage msgs answers).2 = Rejected ->
  forEachMessage (msgs ++ rest)%list answers = forEachMessage msgs answers.
Proof.
  revert answers. induction msgs as [|m msgs IH]; intros answers; [discriminate|].
  rewrite <- app_comm_cons. cbn [forEachMessage].
  destruct (processMessage m answers) as [[tr answers1] c].
  destruct c; [|reflexivity].
  specialize (IH answers1).
  destruct (forEachMessage msgs answers1) as [tr1 c1] eqn:E. simpl.
  intros ->. now rewrite IH.
Qed.

(** X24.  When the loop over a batch is rejected (a delete call inside the
    error path of a message fails), the messages that follow in the batch
    are not touched in this run: the run is the same whatever follows, and
    it ends with the polling error line and the next poll. *)
Theorem rejected_delete_abandons_the_batch msgs rest answers :
  (forEachMessage msgs answers).2 = Rejected ->
  pollSQSMessages (ReceiveResolved (Some (msgs ++ rest)%list)) answers
  = pollSQSMessages (ReceiveResolved (Some msgs)) answers
  /\ exists tr,
       pollSQSMessages (ReceiveResolved (Some msgs)) answers
       = (tr ++ [LogError "Error polling SQS:"; SetTimeout 1000])%list.
Proof.
  intros H.
  assert (Hne : msgs <> []) by (intros ->; discriminate H).
  pose proof (forEachMessage_stops_at_rejection msgs rest answers H) as Hstop.
  unfold pollSQSMessages.
  destruct msgs as [|m msgs]; [congruence|].
  rewrite <- app_comm_cons in *. rewrite Hstop. split; [reflexivity|].
  destruct (forEachMessage (m :: msgs) answers) as [tr c]. simpl in H. subst c.
  exists (LogInfo "Received" :: tr). simpl. now rewrite <- app_assoc.
Qed.

End QueueLoop.

(** ** The start-up check *)

Lemma isSet_true env name :
  isSet env name = true <-> exists v, env !! name = Some v /\ v <> "".
Proof.
  unfold isSet. destruct (env !! name) as [v|].
  - destruct (String.eqb_spec v ""); simpl; split.
    + discriminate.
    + intros (v' & [= <-] & H). congruence.
    + intros _. eauto.
    + reflexivity.
  - split; [discriminate|]. intros (v & H & _). discriminate.
Qed.

(** X25.  The script gets past its start-up check exactly when each of the
    eight variables is set to a non-empty string; otherwise it exits with
    code 1. *)
Theorem startup_proceeds_iff_all_variables_set (env : gmap string string) :
  (checkEnvironment env = Started <->
   forall name, name ∈ requiredVariables -> exists v, env !! name = Some v /\ v <> "")
  /\ (checkEnvironment env <> Started ->
      exists message, checkEnvironment env = Exit 1 message).
Proof.
  split.
  - split.
    + intros H name Hin. apply isSet_true.
      unfold checkEnvironment in H.
      destruct (isSet env "SUPABASE_URL") eqn:E1; [|discriminate H].
      destruct (isSet env "SUPABASE_KEY") eqn:E2; [|discriminate H].
      destruct (isSet env "TELEGRAM_TOKEN") eqn:E3; [|discriminate H].
      destruct (isSet env "CHAT_ID") eqn:E4; [|discriminate H].
      destruct (isSet env "AWS_REGION") eqn:E5; [|discriminate H].
      destruct (isSet env "AWS_ACCESS_KEY_ID") eqn:E6; [|discriminate H].
      destruct (isSet env "AWS_SECRET_ACCESS_KEY") eqn:E7; [|discriminate H].
      destruct (isSet env "SQS_QUEUE_URL") eqn:E8; [|discriminate H].
      unfold requiredVariables in Hin.
      repeat (apply elem_of_cons in Hin as [->|Hin]; [assumption|]).
      inversion Hin.
    + intros H. unfold checkEnvironment.
      assert (Hset : forall name, name ∈ requiredVariables -> isSet env name = true).
      { intros name Hin. apply isSet_true. now apply H. }
      rewrite !Hset by (apply list_elem_of_In; simpl; tauto).
      reflexivity.
  - intros H. unfold checkEnvironment in *.
    destruct (_ || _); [eauto|]. destruct (_ || _); [eauto|congruence].
Qed.

(** ** Worked examples of the further properties *)

Section FurtherExamples.
#[local] Existing Instance example_runtime.

(** X3 at a concrete input. *)
Lemma escapeHtml_distinct_texts_witness :
  escapeHtml (Str "a<b") = escapeHtml (Str "a<b") /\ "a<b" = "a<b".
Proof.
  split; [reflexivity|].
  apply (escapeHtml_distinct_texts_stay_distinct (rt := example_runtime) "a<b" "a<b").
  reflexivity.
Defined.

(** X4 at a concrete input. *)
Lemma escapeHtml_keeps_plain_text_witness : escapeHtml (Str "alice_01") = "alice_01".
Proof.
  apply (escapeHtml_keeps_plain_text (rt := example_runtime) "alice_01"); reflexivity.
Defined.

(** X7 at a concrete input: the signup event read at two clock readings. *)
Lemma generateEventId_tells_apart_witness :
  generateEventId Users INSERT signup T0 = generateEventId Users INSERT signup (T0 + 1)
  /\ Users = Users /\ INSERT = INSERT.
Proof.
  split; [vm_compute; reflexivity|].
  apply (generateEventId_tells_tables_and_operations_apart (rt := example_runtime)
           Users INSERT signup T0 Users INSERT signup (T0 + 1)).
  vm_compute. reflexivity.
Defined.


(** What the collision means for the bot: the PnL of a user rises from 0 to
    1000 and, ten seconds later, from 1000 to 1900.  Alone, the second
    update is announced; after the first it is dropped as a duplicate. *)
Lemma colliding_update_is_dropped :
  let first := Change Users UPDATE (pnlUpdate 0 1000) T0 in
  let second := Change Users UPDATE (pnlUpdate 1000 1900) (T0 + 10000) in
  map label (sent (step first empty_store)) = ["Users UPDATE (PnL change):"]
  /\ map label (sent (step second empty_store)) = ["Users UPDATE (PnL change):"]
  /\ sent (step second (store_after (step first empty_store))) = [].
Proof. vm_compute. repeat split; reflexivity. Qed.

(** X9 at a concrete input: the signup event is delivered at [T0] and again
    250 seconds later. *)
Lemma same_payload_redelivered_witness :
  sent (step (Change Users INSERT signup (T0 + 250000))
          (run (Change Users INSERT signup T0 :: [Tick (T0 + 60000); Tick (T0 + 120000)])
             empty_store)) = [].
Proof.
  apply (same_payload_redelivered_is_suppressed (rt := example_runtime)
           Users INSERT signup T0 (T0 + 250000)
           [Tick (T0 + 60000); Tick (T0 + 120000)] empty_store).
  - discriminate.
  - right. vm_compute. reflexivity.
  - vm_compute. reflexivity.
  - repeat constructor; vm_compute; discriminate.
  - vm_compute. discriminate.
Defined.

(** X10 at a concrete input: the signup event is seen at [T0] and delivered
    again 200 seconds and 301 seconds later; the sweep at 360 seconds
    removes the entry, 59 seconds after the last duplicate. *)
Lemma duplicates_do_not_extend_the_window_witness :
  let k := "Users:INSERT:u1:2024-01-01T00:00:00Z:" in
  let mid := [Change Users INSERT signup (T0 + 200000); Tick (T0 + 240000);
              Change Users INSERT signup (T0 + 301000)] in
  processedEvents (run (Change Users INSERT signup T0 :: mid) empty_store) !! k = Some T0
  /\ processedEvents (run (Change Users INSERT signup T0 :: mid ++ [Tick (T0 + 360000)])
                        empty_store) !! k = None.
Proof.
  apply (duplicates_do_not_extend_the_window (rt := example_runtime)
           Users INSERT signup T0
           [Change Users INSERT signup (T0 + 200000); Tick (T0 + 240000);
            Change Users INSERT signup (T0 + 301000)]
           (T0 + 360000) empty_store "Users:INSERT:u1:2024-01-01T00:00:00Z:").
  - vm_compute. reflexivity.
  - vm_compute. reflexivity.
  - repeat constructor. vm_compute. discriminate.
  - vm_compute. reflexivity.
Defined.

(** X11 at a concrete input: the signup event seen 30 seconds before a
    sweep. *)
Lemma after_a_sweep_witness :
  (T0 + 60000 - EVENT_CACHE_TTL <= T0 + 30000 <= T0 + 60000)%Z.
Proof.
  apply (after_a_sweep_store_holds_last_five_minutes (rt := example_runtime)
           [Change Users INSERT signup (T0 + 30000)] (T0 + 60000) empty_store T0
           "Users:INSERT:u1:2024-01-01T00:00:00Z:" (T0 + 30000)).
  - intros k ts H. vm_compute in H. discriminate H.
  - repeat split; vm_compute; discriminate.
  - vm_compute. reflexivity.
Defined.

(** X12 at a concrete input: the volume falls from 1200 to 900. *)
Lemma falling_value_witness :
  applyCall (volumeCall 1200 900) ∅ = (None, ∅).
Proof.
  apply (falling_value_announces_nothing (rt := example_runtime)
           (Str "u1") "volume" 1200 900 volumeMilestones
           (volumeMsgOf (Str "alice") (Str "u1")) ∅).
  reflexivity.
Defined.

(** X13 at a concrete input: the volume rises from 900 to 1200, a
    transaction milestone is recorded, and the volume rises to 6000. *)
Lemma threshold_never_announced_twice_witness :
  let c := volumeCall 900 1200 in
  let c' := volumeCall 1200 6000 in
  exists t t',
    t ∈ callLadder c /\ (applyCall c ∅).1 = Some (callGenerator c t (callNew c))
    /\ t' ∈ callLadder c'
    /\ (applyCall c' (runCalls [txnCall 9 12] (applyCall c ∅).2)).1
       = Some (callGenerator c' t' (callNew c'))
    /\ JsNum.lt t t' = true.
Proof.
  cbv zeta.
  destruct (threshold_never_announced_twice (rt := example_runtime)
              (volumeCall 900 1200) [txnCall 9 12] (volumeCall 1200 6000) ∅
              (default "" (applyCall (volumeCall 900 1200) ∅).1)
              (applyCall (volumeCall 900 1200) ∅).2
              (default "" (applyCall (volumeCall 1200 6000)
                             (runCalls [txnCall 9 12]
                                (applyCall (volumeCall 900 1200) ∅).2)).1)
              (applyCall (volumeCall 1200 6000)
                 (runCalls [txnCall 9 12] (applyCall (volumeCall 900 1200) ∅).2)).2)
    as (t & t' & Hin & Hmsg & Hin' & Hmsg' & Hlt).
  - reflexivity.
  - vm_compute. reflexivity.
  - vm_compute. reflexivity.
  - exists t, t'. repeat split; try assumption.
    + rewrite <- Hmsg. vm_compute. reflexivity.
    + rewrite <- Hmsg'. vm_compute. reflexivity.
Defined.

(** X16 at a concrete input: the PnL rises from 0 to exactly 100. *)
Lemma pnl_swing_of_100_witness :
  emitted "Users UPDATE (PnL change):"
    (sent (onChange Users UPDATE (pnlUpdate 0 100) T0 empty_store)) = true.
Proof.
  destruct (pnl_notified_iff_swing_of_100 (rt := example_runtime)
              (pnlUpdate 0 100) T0 empty_store (userRow 100)) as (_ & H & _).
  - reflexivity.
  - vm_compute. reflexivity.
  - vm_compute. reflexivity.
  - vm_compute. reflexivity.
  - vm_compute. lia.
  - apply H. left. vm_compute. reflexivity.
Defined.

(** X17 at a concrete input: copytrading is switched on. *)
Lemma copytrading_flag_flips_witness :
  emitted "Users UPDATE (copytrading):"
    (sent (onChange Users UPDATE
             (columnUpdate "is_copytrading_enabled" (Bool false) (Bool true))
             T0 empty_store)) = true.
Proof.
  apply (copytrading_notified_iff_flag_flips (rt := example_runtime)
           (columnUpdate "is_copytrading_enabled" (Bool false) (Bool true)) T0 empty_store
           (list_to_map
              [("id", Str "u1"); ("telegram_username", Str "alice");
               ("is_copytrading_enabled", Bool true);
               ("updated_at", Str "2024-01-01T00:00:09Z")])).
  - reflexivity.
  - vm_compute. reflexivity.
  - vm_compute. reflexivity.
  - vm_compute. reflexivity.
  - vm_compute. lia.
  - exists (Bool false). split; [vm_compute; reflexivity|vm_compute; discriminate].
Defined.

(** X18 at a concrete input: the fees rise from 10 to 60. *)
Lemma fees_rise_of_50_witness :
  emitted "Users UPDATE (high fees):"
    (sent (onChange Users UPDATE (columnUpdate "fees_total" (Num 10) (Num 60))
             T0 empty_store)) = true.
Proof.
  apply (fees_notified_iff_rise_of_50 (rt := example_runtime)
           (columnUpdate "fees_total" (Num 10) (Num 60)) T0 empty_store
           (list_to_map
              [("id", Str "u1"); ("telegram_username", Str "alice");
               ("fees_total", Num 60); ("updated_at", Str "2024-01-01T00:00:09Z")])).
  - reflexivity.
  - vm_compute. reflexivity.
  - vm_compute. reflexivity.
  - vm_compute. reflexivity.
  - vm_compute. lia.
  - vm_compute. reflexivity.
Defined.

(** X19 at a concrete input: a trade becomes [executed]. *)
Lemma autoTrade_status_change_witness :
  let out := sent (onChange Auto_Trade UPDATE tradeExecuted T0 empty_store) in
  (length out <= 1)%nat
  /\ (out <> [] <->
      statusOf (new tradeExecuted) <> statusOf (old tradeExecuted)
      /\ (statusOf (new tradeExecuted) = "executed"
          \/ statusOf (new tradeExecuted) = "failed"
          \/ statusOf (new tradeExecuted) = "skipped"))
  /\ (forall n, n ∈ out ->
        label n = "Auto_Trade UPDATE (" +:+ statusOf (new tradeExecuted) +:+ "):").
Proof.
  apply (autoTrade_update_notifies_on_status_change (rt := example_runtime)
           tradeExecuted T0 empty_store
           (list_to_map
              [("id", Str "t1"); ("user_id", Str "u1"); ("market_title", Str "Rain tomorrow?");
               ("side", Str "YES"); ("status", Str "executed");
               ("updated_at", Str "2024-01-01T00:00:07Z")])).
  - reflexivity.
  - vm_compute. reflexivity.
  - vm_compute. reflexivity.
  - vm_compute. reflexivity.
Defined.

(** X20 at a concrete input: a wallet is enabled and its ratio doubled in
    one update; only the first is announced. *)
Lemma copyWallets_update_witness :
  map label (sent (onChange Copy_Wallets UPDATE walletUpdate T0 empty_store))
  = ["Copy_Wallets UPDATE (enabled/disabled):"]
  /\ emitted "Copy_Wallets UPDATE (ratio change):"
       (sent (onChange Copy_Wallets UPDATE walletUpdate T0 empty_store)) = false.
Proof.
  split; [vm_compute; reflexivity|].
  destruct (copyWallets_update_sends_at_most_one (rt := example_runtime)
              walletUpdate T0 empty_store
              (list_to_map
                 [("id", Str "w1"); ("user_id", Str "u1"); ("wallet_address", Str "0xdef");
                  ("is_enabled", Bool true); ("percent_ratio", Num 50);
                  ("updated_at", Str "2024-01-01T00:00:11Z")])) as (_ & _ & H).
  - reflexivity.
  - vm_compute. reflexivity.
  - vm_compute. reflexivity.
  - vm_compute. reflexivity.
  - vm_compute. lia.
  - rewrite H. vm_compute. reflexivity.
Defined.

(** X21 at a concrete input: the signup event. *)
Lemma insert_sends_one_notification_witness :
  exists n,
    sent (onChange Users INSERT signup T0 empty_store) = [n]
    /\ label n = "Users INSERT:".
Proof.
  apply (insert_sends_one_notification (rt := example_runtime)
           Users signup T0 empty_store
           (list_to_map
              [("id", Str "u1"); ("telegram_username", Str "alice");
               ("wallet_address", Str "0xabc"); ("amount_deposited", Num 0);
               ("created_at", Str "2024-01-01T00:00:00Z")])).
  - reflexivity.
  - vm_compute. reflexivity.
  - vm_compute. reflexivity.
  - vm_compute. reflexivity.
Defined.

(** X24 at a concrete input: the body of the first message is no JSON text
    and its delete call is rejected; the order behind it is not read. *)
Lemma rejected_delete_abandons_the_batch_witness :
  pollSQSMessages (ReceiveResolved (Some ([brokenMessage] ++ [emptyOrder])%list)) [false]
  = pollSQSMessages (ReceiveResolved (Some [brokenMessage])) [false]
  /\ exists tr,
       pollSQSMessages (ReceiveResolved (Some [brokenMessage])) [false]
       = (tr ++ [LogError "Error polling SQS:"; SetTimeout 1000])%list.
Proof.
  apply (rejected_delete_abandons_the_batch (rt := example_runtime)
           [brokenMessage] [emptyOrder] [false]).
  vm_compute. reflexivity.
Defined.

End FurtherExamples.
